(** * protein-metamorphisms-is: the relational schema, the pipeline entry
      points and the structural-alignment task queue

    The development follows the Python sources:
    - [sql/model.py]: the SQLAlchemy table declarations;
    - [main.py]: the pipeline entry point;
    - [operation/embedding/proccess/sequence/esm.py]: [embedding_task];
    - [examples/example_fasta/main.py]: the FASTA example entry point.

    Integer columns are [Z], nullable columns are [option], strings are
    [string] (one character per byte), timestamps are [Z] seconds. *)

From Stdlib Require Import ZArith List String Ascii Bool Lia QArith
  DecimalString.
Import ListNotations.
Local Open Scope Z_scope.
Local Open Scope list_scope.

(** ** MD5 (RFC 1321): the digest PostgreSQL's [md5(text)] computes

    [Sequence.__init__] sets [sequence_hash = func.md5(self.sequence)];
    the expression is evaluated by the database as the lowercase
    hexadecimal MD5 digest of the bytes of the string. *)
Module MD5.

Definition mask32 : Z := 0xffffffff.
Definition w32 (x : Z) : Z := Z.land x mask32.
Definition add32 (x y : Z) : Z := w32 (x + y).
Definition not32 (x : Z) : Z := Z.lxor x mask32.
Definition rotl32 (x c : Z) : Z :=
  w32 (Z.lor (Z.shiftl x c) (Z.shiftr x (32 - c))).

(** Per-round left-rotation amounts. *)
Definition s_table : list Z :=
  [7; 12; 17; 22; 7; 12; 17; 22; 7; 12; 17; 22; 7; 12; 17; 22;
   5;  9; 14; 20; 5;  9; 14; 20; 5;  9; 14; 20; 5;  9; 14; 20;
   4; 11; 16; 23; 4; 11; 16; 23; 4; 11; 16; 23; 4; 11; 16; 23;
   6; 10; 15; 21; 6; 10; 15; 21; 6; 10; 15; 21; 6; 10; 15; 21].

(** [K[i] = floor(2^32 * abs(sin(i + 1)))]. *)
Definition K_table : list Z :=
  [0xd76aa478; 0xe8c7b756; 0x242070db; 0xc1bdceee;
   0xf57c0faf; 0x4787c62a; 0xa8304613; 0xfd469501;
   0x698098d8; 0x8b44f7af; 0xffff5bb1; 0x895cd7be;
   0x6b901122; 0xfd987193; 0xa679438e; 0x49b40821;
   0xf61e2562; 0xc040b340; 0x265e5a51; 0xe9b6c7aa;
   0xd62f105d; 0x02441453; 0xd8a1e681; 0xe7d3fbc8;
   0x21e1cde6; 0xc33707d6; 0xf4d50d87; 0x455a14ed;
   0xa9e3e905; 0xfcefa3f8; 0x676f02d9; 0x8d2a4c8a;
   0xfffa3942; 0x8771f681; 0x6d9d6122; 0xfde5380c;
   0xa4beea44; 0x4bdecfa9; 0xf6bb4b60; 0xbebfbc70;
   0x289b7ec6; 0xeaa127fa; 0xd4ef3085; 0x04881d05;
   0xd9d4d039; 0xe6db99e5; 0x1fa27cf8; 0xc4ac5665;
   0xf4292244; 0x432aff97; 0xab9423a7; 0xfc93a039;
   0x655b59c3; 0x8f0ccc92; 0xffeff47d; 0x85845dd1;
   0x6fa87e4f; 0xfe2ce6e0; 0xa3014314; 0x4e0811a1;
   0xf7537e82; 0xbd3af235; 0x2ad7d2bb; 0xeb86d391].

Definition nthZ (l : list Z) (i : Z) : Z := nth (Z.to_nat i) l 0.

(** The four auxiliary functions and the message-word index of round [i]. *)
Definition round_fg (i b c d : Z) : Z * Z :=
  if i <? 16 then (Z.lor (Z.land b c) (Z.land (not32 b) d), i)
  else if i <? 32 then
    (Z.lor (Z.land d b) (Z.land (not32 d) c), (5 * i + 1) mod 16)
  else if i <? 48 then (Z.lxor (Z.lxor b c) d, (3 * i + 5) mod 16)
  else (Z.lxor c (Z.lor b (not32 d)), (7 * i) mod 16).

Record regs := Regs { rA : Z; rB : Z; rC : Z; rD : Z }.

Definition round (M : list Z) (r : regs) (i : Z) : regs :=
  let '(f, g) := round_fg i (rB r) (rC r) (rD r) in
  let f' := add32 (add32 (add32 f (rA r)) (nthZ K_table i)) (nthZ M g) in
  Regs (rD r) (add32 (rB r) (rotl32 f' (nthZ s_table i))) (rB r) (rC r).

Definition round_indices : list Z := map Z.of_nat (seq 0 64).

(** One 512-bit block, given as sixteen little-endian words. *)
Definition process_block (h : regs) (M : list Z) : regs :=
  let r := fold_left (round M) round_indices h in
  Regs (add32 (rA h) (rA r)) (add32 (rB h) (rB r))
       (add32 (rC h) (rC r)) (add32 (rD h) (rD r)).

Definition init_regs : regs :=
  Regs 0x67452301 0xefcdab89 0x98badcfe 0x10325476.

(** Little-endian encoding of [x] on [n] bytes. *)
Fixpoint le_bytes (n : nat) (x : Z) : list Z :=
  match n with
  | O => []
  | S n' => Z.land x 0xff :: le_bytes n' (Z.shiftr x 8)
  end.

Fixpoint le_word (bs : list Z) : Z :=
  match bs with
  | [] => 0
  | b :: bs' => Z.lor b (Z.shiftl (le_word bs') 8)
  end.

(** Padding: a 0x80 byte, zeros up to 56 mod 64, the bit length on 8 bytes. *)
Definition pad (msg : list Z) : list Z :=
  let len := Z.of_nat (List.length msg) in
  let zeros := Z.to_nat ((55 - len) mod 64) in
  msg ++ [0x80] ++ repeat 0 zeros ++ le_bytes 8 ((8 * len) mod 2 ^ 64).

(** Split into groups of [k] elements; [fuel] bounds the number of groups. *)
Fixpoint chunks {A} (fuel k : nat) (l : list A) : list (list A) :=
  match fuel, l with
  | O, _ => []
  | _, [] => []
  | S fuel', _ => firstn k l :: chunks fuel' k (skipn k l)
  end.

Definition words_of_block (blk : list Z) : list Z :=
  map le_word (chunks 16 4 blk).

Definition blocks (bytes : list Z) : list (list Z) :=
  map words_of_block (chunks (S (List.length bytes)) 64 bytes).

Definition digest_bytes (msg : list Z) : list Z :=
  let r := fold_left process_block (blocks (pad msg)) init_regs in
  le_bytes 4 (rA r) ++ le_bytes 4 (rB r) ++ le_bytes 4 (rC r)
    ++ le_bytes 4 (rD r).

Definition hex_digit (n : Z) : ascii :=
  nth (Z.to_nat n) (list_ascii_of_string "0123456789abcdef") "0"%char.

Definition hex_of_bytes (bs : list Z) : string :=
  string_of_list_ascii
    (flat_map (fun b => [hex_digit (Z.shiftr b 4); hex_digit (Z.land b 0xf)])
              bs).

Definition bytes_of_string (s : string) : list Z :=
  map (fun c => Z.of_N (N_of_ascii c)) (list_ascii_of_string s).

Definition md5 (s : string) : string :=
  hex_of_bytes (digest_bytes (bytes_of_string s)).

End MD5.

(** ** The tables of [sql/model.py]

    One module per mapped class, one record field per [Column].  A column
    declared [nullable=False] (or a primary key) has a plain type, any other
    column is an [option].  [Float] columns hold rationals: the values are
    only stored and compared. *)

Definition Float : Type := Q.

Module Sequence.

Record t := mk {
  id : Z;
  sequence : option string;
  sequence_hash : option string
}.

(** [func.md5(x)] as the database evaluates it: [md5(NULL)] is [NULL]. *)
Definition func_md5 (x : option string) : option string :=
  option_map MD5.md5 x.

(** [__init__(self, **kwargs)]: the declarative constructor stores the
    keyword arguments, then [sequence_hash] is overwritten with
    [func.md5(self.sequence)]. *)
Definition __init__ (kw_id : Z) (kw_sequence kw_sequence_hash : option string)
  : t :=
  let self := mk kw_id kw_sequence kw_sequence_hash in
  mk (id self) (sequence self) (func_md5 (sequence self)).

End Sequence.

Module Cluster.
Record t := mk {
  id : Z;
  created_at : Z
}.
End Cluster.

Module ClusterEntry.
Record t := mk {
  id : Z;
  cluster_id : option Z;          (* ForeignKey('clusters.id') *)
  sequence_id : Z;                (* ForeignKey('sequences.id'), not null *)
  is_representative : option bool;
  sequence_length : option Z;
  identity : option Float;
  created_at : Z
}.
End ClusterEntry.

Module StructuralAlignmentType.
Record t := mk {
  id : Z;
  name : string;
  description : option string;
  task_name : option string
}.
End StructuralAlignmentType.

(** Values of the [state] column. *)
Definition Pending : Z := 0.
Definition Processing : Z := 1.
Definition Completed : Z := 2.
Definition Error : Z := 3.

Module StructuralAlignmentQueue.
Record t := mk {
  id : Z;
  cluster_entry_id : Z;           (* ForeignKey('clusters.id'), not null *)
  alignment_type_id : Z;          (* ForeignKey('structural_alignment_types.id') *)
  state : Z;                      (* default=0 *)
  retry_count : Z;                (* default=0 *)
  error_message : option string;  (* nullable, no default *)
  created_at : Z;                 (* default=func.now() *)
  updated_at : Z                  (* default=func.now(), onupdate=func.now() *)
}.

(** The row an INSERT creates when only the two foreign keys are given:
    every other column takes its declared default. *)
Definition new_row (fresh_id now cluster_entry alignment_type : Z) : t :=
  mk fresh_id cluster_entry alignment_type 0 0 None now now.

End StructuralAlignmentQueue.

Module StructuralAlignmentResults.
Record t := mk {
  id : Z;
  cluster_entry_id : option Z;    (* ForeignKey('clusters.id') *)
  ce_rms : option Float;
  tm_rms : option Float;
  tm_seq_id : option Float;
  tm_score_chain_1 : option Float;
  tm_score_chain_2 : option Float;
  fc_rms : option Float;
  fc_identity : option Float;
  fc_similarity : option Float;
  fc_score : option Float;
  fc_align_len : option Float
}.
End StructuralAlignmentResults.

(** [PDBReference], with the columns the FASTA example reads. *)
Module PDBReference.
Record t := mk {
  id : Z;
  pdb_id : string;
  resolution : option Float
}.
End PDBReference.

(** The database: one list of rows per table, in insertion order. *)
Record Store := mkStore {
  sequences : list Sequence.t;
  clusters : list Cluster.t;
  cluster_entries : list ClusterEntry.t;
  structural_alignment_types : list StructuralAlignmentType.t;
  structural_alignment_queue : list StructuralAlignmentQueue.t;
  structural_alignment_results : list StructuralAlignmentResults.t
}.

Definition empty_store : Store := mkStore [] [] [] [] [] [].

(** *** Declared constraints

    What the database enforces is what the declarations say: primary keys
    are unique, [unique=True] columns are unique among non-NULL values, and a
    non-NULL foreign key names an existing row of the referenced table.
    These are the key constraints: a store that violates one is refused.
    The column types refuse more (an [Integer] outside 32 bits, say); for
    the queue and result tables see [keys_and_integers_ok]. *)

Definition memZ (x : Z) (l : list Z) : bool := existsb (Z.eqb x) l.

Fixpoint distinctZ (l : list Z) : bool :=
  match l with
  | [] => true
  | x :: l' => negb (memZ x l') && distinctZ l'
  end.

Definition mem_string (x : string) (l : list string) : bool :=
  existsb (String.eqb x) l.

Fixpoint distinct_string (l : list string) : bool :=
  match l with
  | [] => true
  | x :: l' => negb (mem_string x l') && distinct_string l'
  end.

(** A nullable foreign key: NULL references nothing and is accepted. *)
Definition fk_nullable (v : option Z) (keys : list Z) : bool :=
  match v with
  | None => true
  | Some k => memZ k keys
  end.

(** The non-NULL values of a nullable column. *)
Definition present {A B} (f : A -> option B) (rows : list A) : list B :=
  flat_map (fun r => match f r with Some v => [v] | None => [] end) rows.

Definition cluster_ids (db : Store) : list Z := map Cluster.id (clusters db).
Definition cluster_entry_ids (db : Store) : list Z :=
  map ClusterEntry.id (cluster_entries db).
Definition sequence_ids (db : Store) : list Z :=
  map Sequence.id (sequences db).
Definition alignment_type_ids (db : Store) : list Z :=
  map StructuralAlignmentType.id (structural_alignment_types db).

Definition sequences_ok (db : Store) : bool :=
  distinctZ (sequence_ids db)
  && forallb (fun s => match Sequence.sequence s with
                       | Some _ => true | None => false end) (sequences db)
  && distinct_string (present Sequence.sequence_hash (sequences db)).

Definition clusters_ok (db : Store) : bool := distinctZ (cluster_ids db).

Definition cluster_entries_ok (db : Store) : bool :=
  distinctZ (cluster_entry_ids db)
  && forallb (fun e =>
        fk_nullable (ClusterEntry.cluster_id e) (cluster_ids db)
        && memZ (ClusterEntry.sequence_id e) (sequence_ids db))
      (cluster_entries db).

Definition structural_alignment_types_ok (db : Store) : bool :=
  distinctZ (alignment_type_ids db).

Definition structural_alignment_queue_ok (db : Store) : bool :=
  distinctZ (map StructuralAlignmentQueue.id (structural_alignment_queue db))
  && forallb (fun q =>
        memZ (StructuralAlignmentQueue.cluster_entry_id q) (cluster_ids db)
        && memZ (StructuralAlignmentQueue.alignment_type_id q)
                (alignment_type_ids db))
      (structural_alignment_queue db).

Definition structural_alignment_results_ok (db : Store) : bool :=
  distinctZ (map StructuralAlignmentResults.id
                 (structural_alignment_results db))
  && forallb (fun r =>
        fk_nullable (StructuralAlignmentResults.cluster_entry_id r)
                    (cluster_ids db))
      (structural_alignment_results db).

Definition schema_ok (db : Store) : bool :=
  sequences_ok db && clusters_ok db && cluster_entries_ok db
  && structural_alignment_types_ok db && structural_alignment_queue_ok db
  && structural_alignment_results_ok db.

(** The range of an [Integer] column, PostgreSQL's 32-bit INTEGER. *)
Definition int32 (z : Z) : bool :=
  (-2147483648 <=? z) && (z <=? 2147483647).

Definition int32_nullable (o : option Z) : bool :=
  match o with
  | Some z => int32 z
  | None => true
  end.

(** The [Integer] columns of a queue row, and of a result row. *)
Definition queue_row_integers_ok (t : StructuralAlignmentQueue.t) : bool :=
  int32 (StructuralAlignmentQueue.id t)
  && int32 (StructuralAlignmentQueue.cluster_entry_id t)
  && int32 (StructuralAlignmentQueue.alignment_type_id t)
  && int32 (StructuralAlignmentQueue.state t)
  && int32 (StructuralAlignmentQueue.retry_count t).

Definition result_row_integers_ok (r : StructuralAlignmentResults.t) : bool :=
  int32 (StructuralAlignmentResults.id r)
  && int32_nullable (StructuralAlignmentResults.cluster_entry_id r).

(** The key constraints of every table, together with the ranges of the
    [Integer] columns of the queue and result tables.  What the database
    makes of the other columns (texts, timestamps, floats) is left out. *)
Definition keys_and_integers_ok (db : Store) : bool :=
  schema_ok db
  && forallb queue_row_integers_ok (structural_alignment_queue db)
  && forallb result_row_integers_ok (structural_alignment_results db).

(** ** The task queue

    [sql/model.py] declares the queue and result tables; the operations on
    them ([enqueue], [claim], [complete], [fail], [recover_stale]) belong to
    [StructuralAlignmentManager], which [main.py] imports but whose body is
    not among the sources.  They are modelled here from section 4.2 of the
    specification, over the tables as declared. *)
Module TaskQueue.

Module SAQ := StructuralAlignmentQueue.
Module SAR := StructuralAlignmentResults.

(** Modelled from the spec: the [result] argument of [complete], missing
    with it: the metrics an alignment returns, one per [Float] column of the
    result table. *)
Record Metrics := mkMetrics {
  m_ce_rms : option Float;
  m_tm_rms : option Float;
  m_tm_seq_id : option Float;
  m_tm_score_chain_1 : option Float;
  m_tm_score_chain_2 : option Float;
  m_fc_rms : option Float;
  m_fc_identity : option Float;
  m_fc_similarity : option Float;
  m_fc_score : option Float;
  m_fc_align_len : option Float
}.

(** Modelled from the spec: the row [complete] writes, missing with it.
    "one row per completed task's cluster entry". *)
Definition result_row (rid : Z) (cluster_entry : Z) (m : Metrics) : SAR.t :=
  SAR.mk rid (Some cluster_entry)
         (m_ce_rms m) (m_tm_rms m) (m_tm_seq_id m)
         (m_tm_score_chain_1 m) (m_tm_score_chain_2 m)
         (m_fc_rms m) (m_fc_identity m) (m_fc_similarity m)
         (m_fc_score m) (m_fc_align_len m).

Definition with_queue (db : Store) (q : list SAQ.t) : Store :=
  mkStore (sequences db) (clusters db) (cluster_entries db)
          (structural_alignment_types db) q
          (structural_alignment_results db).

Definition with_queue_results (db : Store) (q : list SAQ.t)
  (r : list SAR.t) : Store :=
  mkStore (sequences db) (clusters db) (cluster_entries db)
          (structural_alignment_types db) q r.

(** The next value of an autoincrement primary key. *)
Definition next_id (ids : list Z) : Z := 1 + fold_right Z.max 0 ids.

(** The row with primary key [task_id], and the update of that row. *)
Definition get_row (task_id : Z) (rows : list SAQ.t) : option SAQ.t :=
  find (fun t => SAQ.id t =? task_id) rows.

Fixpoint update_row (task_id : Z) (f : SAQ.t -> SAQ.t) (rows : list SAQ.t)
  : list SAQ.t :=
  match rows with
  | [] => []
  | t :: rest =>
      if SAQ.id t =? task_id then f t :: rest
      else t :: update_row task_id f rest
  end.

Definition same_pair (cluster_entry alignment_type : Z) (t : SAQ.t) : bool :=
  (SAQ.cluster_entry_id t =? cluster_entry)
  && (SAQ.alignment_type_id t =? alignment_type).

Section WithMaxRetries.

(** The configured retry budget. *)
Variable max_retries : Z.

(** Modelled from the spec: retry eligibility of an Error row, missing
    with the queue operations.  "Error may transition back to Pending if
    retry_count is below a configured maximum, otherwise it is terminal." *)
Definition retry_eligible (t : SAQ.t) : bool :=
  (SAQ.state t =? Error) && (SAQ.retry_count t <? max_retries).

(** Modelled from the spec: the terminal states, missing with the queue
    operations.  "Terminal state: Completed or Error-after-exhausted-retries;
    no further transitions occur." *)
Definition terminal (t : SAQ.t) : bool :=
  (SAQ.state t =? Completed)
  || ((SAQ.state t =? Error) && negb (SAQ.retry_count t <? max_retries)).

(** Modelled from the spec: the rows [claim] may select, missing with
    [claim].  "selects one Pending (or retry-eligible Error) row". *)
Definition claimable (t : SAQ.t) : bool :=
  (SAQ.state t =? Pending) || retry_eligible t.

(** Modelled from the spec: the row-level effect of [claim], missing from
    the sources.  "transitions it to Processing"; the write also fires
    [onupdate=func.now()] of [updated_at]. *)
Definition on_claim (now : Z) (t : SAQ.t) : SAQ.t :=
  SAQ.mk (SAQ.id t) (SAQ.cluster_entry_id t) (SAQ.alignment_type_id t)
         Processing (SAQ.retry_count t) (SAQ.error_message t)
         (SAQ.created_at t) now.

(** Modelled from the spec: the row-level effect of [complete], missing
    from the sources.  "sets state=Completed". *)
Definition on_complete (now : Z) (t : SAQ.t) : SAQ.t :=
  SAQ.mk (SAQ.id t) (SAQ.cluster_entry_id t) (SAQ.alignment_type_id t)
         Completed (SAQ.retry_count t) (SAQ.error_message t)
         (SAQ.created_at t) now.

(** Modelled from the spec: the row-level effect of [fail], missing from
    the sources.  "increments retry_count; if retry_count <= max_retries,
    sets state back to Pending with the recorded error_message; else sets
    state=Error (terminal) with the message retained for diagnosis." *)
Definition on_fail (now : Z) (error_message : string) (t : SAQ.t) : SAQ.t :=
  let retry_count := SAQ.retry_count t + 1 in
  SAQ.mk (SAQ.id t) (SAQ.cluster_entry_id t) (SAQ.alignment_type_id t)
         (if retry_count <=? max_retries then Pending else Error)
         retry_count (Some error_message)
         (SAQ.created_at t) now.

(** Modelled from the spec: [enqueue(cluster_entry_id, alignment_type_id)],
    missing from the sources.  "creates a Pending row; idempotent: enqueuing
    an already-queued, non-terminal pair is a no-op".  The new row takes the
    column defaults of the table. *)
Definition enqueue (now cluster_entry alignment_type : Z) (db : Store)
  : Store :=
  let q := structural_alignment_queue db in
  if existsb (fun t => same_pair cluster_entry alignment_type t
                       && negb (terminal t)) q
  then db
  else with_queue db
         (q ++ [SAQ.new_row (next_id (map SAQ.id q)) now
                            cluster_entry alignment_type]).

(** Modelled from the spec: the conditional update at the heart of [claim],
    missing from the sources.  "a single atomic conditional update, e.g.,
    compare-and-swap on state": the row [task_id] becomes Processing if it
    is claimable, and nothing happens otherwise. *)
Definition claim_task (now task_id : Z) (db : Store)
  : option (SAQ.t * Store) :=
  match get_row task_id (structural_alignment_queue db) with
  | Some t =>
      if claimable t
      then Some (on_claim now t,
                 with_queue db (update_row task_id (on_claim now)
                                           (structural_alignment_queue db)))
      else None
  | None => None
  end.

(** Modelled from the spec: the selection of [claim], missing from the
    sources: the first claimable row in table order ("FIFO-ish"). *)
Fixpoint claim_rows (now : Z) (rows : list SAQ.t)
  : option (SAQ.t * list SAQ.t) :=
  match rows with
  | [] => None
  | t :: rest =>
      if claimable t then Some (on_claim now t, on_claim now t :: rest)
      else match claim_rows now rest with
           | Some (c, rest') => Some (c, t :: rest')
           | None => None
           end
  end.

(** Modelled from the spec: [claim(worker_id) -> Task | None], missing from
    the sources.  "atomically selects one Pending (or retry-eligible Error)
    row, transitions it to Processing, and returns it".  The table has no
    owner column, so [worker_id] leaves no trace in the store. *)
Definition claim (worker_id now : Z) (db : Store) : option (SAQ.t * Store) :=
  match claim_rows now (structural_alignment_queue db) with
  | Some (c, q') => Some (c, with_queue db q')
  | None => None
  end.

(** Modelled from the spec: [complete(task_id, result)], missing from the
    sources.  "writes the StructuralAlignmentResults row and sets
    state=Completed, in one atomic unit".  The result row carries the task's
    [cluster_entry_id], the only link the result table declares. *)
Definition complete (now task_id : Z) (result : Metrics) (db : Store)
  : Store :=
  match get_row task_id (structural_alignment_queue db) with
  | Some t =>
      let rs := structural_alignment_results db in
      with_queue_results db
        (update_row task_id (on_complete now) (structural_alignment_queue db))
        (rs ++ [result_row (next_id (map SAR.id rs))
                           (SAQ.cluster_entry_id t) result])
  | None => db
  end.

(** Modelled from the spec: [fail(task_id, error_message)], missing from the
    sources; see [on_fail]. *)
Definition fail (now task_id : Z) (error_message : string) (db : Store)
  : Store :=
  with_queue db
    (update_row task_id (on_fail now error_message)
                (structural_alignment_queue db)).

(** Modelled from the spec: the rows [recover_stale] sweeps, missing with
    it.  "Processing rows whose update timestamp is older than timeout". *)
Definition stale (now timeout : Z) (t : SAQ.t) : bool :=
  (SAQ.state t =? Processing) && (SAQ.updated_at t <? now - timeout).

(** Modelled from the spec: [recover_stale(timeout)], missing from the
    sources.  "treats them as crashed workers: transitions them through
    fail with a synthetic stale claim message". *)
Definition recover_stale (now timeout : Z) (db : Store) : Store :=
  with_queue db
    (map (fun t => if stale now timeout t
                   then on_fail now "stale claim" t else t)
         (structural_alignment_queue db)).

(** Modelled from the spec: the condition under which a worker reports on
    a task, missing with the dispatcher.  "complete and fail operate on a
    task already exclusively owned by the calling worker (by virtue of being
    in Processing under that worker's claim)". *)
Definition in_processing (task_id : Z) (db : Store) : Prop :=
  exists t, get_row task_id (structural_alignment_queue db) = Some t
            /\ SAQ.state t = Processing.

(** Modelled from the spec: the protocol of sections 4.3 and 5, missing
    with the dispatcher.  Any caller may enqueue, claim or sweep at any
    time; [complete] and [fail] are issued on a task in Processing. *)
Inductive step : Store -> Store -> Prop :=
| step_enqueue : forall now cluster_entry alignment_type db,
    step db (enqueue now cluster_entry alignment_type db)
| step_claim : forall worker_id now db c db',
    claim worker_id now db = Some (c, db') -> step db db'
| step_claim_task : forall now task_id db c db',
    claim_task now task_id db = Some (c, db') -> step db db'
| step_complete : forall now task_id result db,
    in_processing task_id db -> step db (complete now task_id result db)
| step_fail : forall now task_id error_message db,
    in_processing task_id db -> step db (fail now task_id error_message db)
| step_recover_stale : forall now timeout db,
    step db (recover_stale now timeout db).

Inductive steps : Store -> Store -> Prop :=
| steps_refl : forall db, steps db db
| steps_snoc : forall db db' db'',
    steps db db' -> step db' db'' -> steps db db''.



End WithMaxRetries.

End TaskQueue.

(** ** The clustering engine

    [main.py] starts [SequenceClustering], whose body is not among the
    sources; the run is modelled from section 4.1 of the specification and
    writes the [clusters] and [cluster_entries] tables as declared. *)
Module ClusteringEngine.

(** Modelled from the spec: an input sequence of [cluster], missing with
    the engine: its [sequences.id] and its length. *)
Record Member := mkMember { seq_id : Z; seq_len : Z }.

(** Modelled from the spec: what the external similarity computation
    returns, missing with the engine: the group of each sequence, the
    method's own score, and the identity between two sequences. *)
Record Similarity := mkSimilarity {
  label : Z -> Z;
  score : Z -> Z;
  identity_to : Z -> Z -> Float
}.

Inductive ClusterError := InputError | ExternalToolError.

Definition with_clusters (db : Store) (cs : list Cluster.t)
  (es : list ClusterEntry.t) : Store :=
  mkStore (sequences db) cs es (structural_alignment_types db)
          (structural_alignment_queue db) (structural_alignment_results db).

(** Modelled from the spec: the comparison behind the representative, missing
    with the engine.  "using the method's own scoring ... tie-break: lowest
    Sequence identifier". *)
Definition better (sim : Similarity) (m cur : Member) : bool :=
  (score sim (seq_id cur) <? score sim (seq_id m))
  || ((score sim (seq_id cur) =? score sim (seq_id m))
      && (seq_id m <? seq_id cur)).

(** Modelled from the spec: the position of the representative among the
    members of one cluster, missing with the engine.  "must pick exactly one
    representative entry per cluster". *)
Fixpoint argbest (sim : Similarity) (cur_i : nat) (cur : Member) (i : nat)
  (rest : list Member) : nat :=
  match rest with
  | [] => cur_i
  | m :: rest' =>
      if better sim m cur then argbest sim i m (S i) rest'
      else argbest sim cur_i cur (S i) rest'
  end.

(** Modelled from the spec: the representative of a group, missing with
    the engine: the position of the best member, the first one standing
    for itself. *)
Definition rep_index (sim : Similarity) (members : list Member) : nat :=
  match members with
  | [] => O
  | m :: rest => argbest sim O m 1%nat rest
  end.

(** Modelled from the spec: the entries of one cluster, missing with the
    engine: one row per member, numbered from [base], the member at position
    [rep] flagged as representative, [identity] being the "similarity score
    to representative". *)
Fixpoint entries_from (sim : Similarity) (now cid rep_seq : Z) (rep : nat)
  (base : Z) (i : nat) (members : list Member) : list ClusterEntry.t :=
  match members with
  | [] => []
  | m :: rest =>
      ClusterEntry.mk (base + Z.of_nat i) (Some cid) (seq_id m)
                      (Some (Nat.eqb i rep)) (Some (seq_len m))
                      (Some (identity_to sim (seq_id m) rep_seq)) now
      :: entries_from sim now cid rep_seq rep base (S i) rest
  end.

(** Modelled from the spec: the groups of the partition, missing with the
    engine: the distinct labels, in order of first occurrence. *)
Fixpoint dedup (l : list Z) : list Z :=
  match l with
  | [] => []
  | x :: l' => x :: filter (fun y => negb (y =? x)) (dedup l')
  end.

(** Modelled from the spec: the write of one cluster, missing with the
    engine.  A new [clusters] row and the entries of its members;
    "re-clustering creates new rows rather than mutating old ones". *)
Definition write_cluster (sim : Similarity) (now : Z)
  (sequences : list Member) (db : Store) (lbl : Z) : Store :=
  let members := filter (fun m => label sim (seq_id m) =? lbl) sequences in
  let cid := TaskQueue.next_id (cluster_ids db) in
  let rep := rep_index sim members in
  let rep_seq := seq_id (nth rep members (mkMember 0 0)) in
  with_clusters db
    (clusters db ++ [Cluster.mk cid now])
    (cluster_entries db
       ++ entries_from sim now cid rep_seq rep
            (TaskQueue.next_id (cluster_entry_ids db)) O members).

(** Modelled from the spec: [cluster(sequences, method_config)], missing
    from the sources.  "fails with InputError if given zero sequences; fails
    with ExternalToolError if the underlying similarity computation errors";
    otherwise one cluster is written per group of the partition. *)
Definition cluster (method : list Member -> option Similarity) (now : Z)
  (sequences : list Member) (db : Store) : ClusterError + Store :=
  match sequences with
  | [] => inl InputError
  | _ :: _ =>
      match method sequences with
      | None => inl ExternalToolError
      | Some sim =>
          inr (fold_left (write_cluster sim now sequences)
                         (dedup (map (fun m => label sim (seq_id m))
                                     sequences))
                         db)
      end
  end.

(** The entries of cluster [c] flagged [is_representative = true]. *)
Definition is_rep_of (c : Z) (e : ClusterEntry.t) : bool :=
  match ClusterEntry.cluster_id e, ClusterEntry.is_representative e with
  | Some c', Some true => c' =? c
  | _, _ => false
  end.

Definition rep_count (db : Store) (c : Z) : nat :=
  List.length (filter (is_rep_of c) (cluster_entries db)).

Definition entries_reference_clusters (db : Store) : bool :=
  forallb (fun e => fk_nullable (ClusterEntry.cluster_id e) (cluster_ids db))
          (cluster_entries db).

(** The invariant of the engine: entries reference existing clusters, and
    every cluster has exactly one representative entry. *)
Definition one_representative (db : Store) : Prop :=
  entries_reference_clusters db = true
  /\ forall c, In c (cluster_ids db) -> rep_count db c = 1%nat.

End ClusteringEngine.

(** ** The pipeline entry point ([main.py]) *)
Module Pipeline.

(** The eleven calls of [main], in source order: a constructor applied to
    the configuration, then one method of the object. *)
Inductive Stage :=
| AccessionManager_fetch_accessions_from_api
| AccessionManager_load_accessions_from_csv
| UniProtExtractor_start
| PDBExtractor_start
| SequenceEmbeddingManager_start
| Structure3DiManager_start
| SequenceClustering_start
| StructuralSubClustering_start
| StructuralAlignmentManager_start
| SequenceGOAnnotation_start
| GoMultifunctionalityMetrics_start.

(** The stage sequence as the specification declares it. *)
Inductive Phase :=
| accession | extraction | embedding | clustering | sub_clustering
| alignment | annotation | metrics.

Definition phase_of (s : Stage) : Phase :=
  match s with
  | AccessionManager_fetch_accessions_from_api => accession
  | AccessionManager_load_accessions_from_csv => accession
  | UniProtExtractor_start => extraction
  | PDBExtractor_start => extraction
  | SequenceEmbeddingManager_start => embedding
  | Structure3DiManager_start => embedding
  | SequenceClustering_start => clustering
  | StructuralSubClustering_start => sub_clustering
  | StructuralAlignmentManager_start => alignment
  | SequenceGOAnnotation_start => annotation
  | GoMultifunctionalityMetrics_start => metrics
  end.

Definition phase_rank (p : Phase) : nat :=
  match p with
  | accession => 0 | extraction => 1 | embedding => 2 | clustering => 3
  | sub_clustering => 4 | alignment => 5 | annotation => 6 | metrics => 7
  end.

Definition declared_order : list Phase :=
  [accession; extraction; embedding; clustering; sub_clustering;
   alignment; annotation; metrics].

Section WithStages.

(** The outside world (database, network, files), the configuration object
    and the exceptions a call may raise. *)
Variables World Conf Exn : Type.

(** A call either returns or raises; either way the world may have
    changed. *)
Inductive Outcome (A : Type) :=
| Returned (a : A) (w : World)
| Raised (e : Exn) (w : World).
Arguments Returned {A}.
Arguments Raised {A}.

(** The bodies that are not part of [main.py]. *)
Variable read_yaml_config : option string -> World -> Outcome Conf.
Variable run_stage : Stage -> Conf -> World -> Outcome unit.

(** Computations of [main]: the world and the log of stages started so
    far are threaded through; a raised exception skips what follows. *)
Definition M (A : Type) : Type :=
  World -> list Stage -> Outcome A * list Stage.

Definition ret {A} (a : A) : M A := fun w log => (Returned a w, log).

Definition bind {A B} (c : M A) (k : A -> M B) : M B :=
  fun w log =>
    match c w log with
    | (Returned a w', log') => k a w' log'
    | (Raised e w', log') => (Raised e w', log')
    end.

Notation "x <- c ;; k" := (bind c (fun x => k))
  (at level 61, c at next level, right associativity).
Notation "c ;; k" := (bind c (fun _ => k))
  (at level 61, right associativity).

Definition load (config_path : option string) : M Conf :=
  fun w log => (read_yaml_config config_path w, log).

(** [X(conf).method()]: the stage is logged as started, then runs. *)
Definition call (s : Stage) (conf : Conf) : M unit :=
  fun w log => (run_stage s conf w, log ++ [s]).

Definition main (config_path : option string) : M unit :=
  conf <- load config_path ;;
  call AccessionManager_fetch_accessions_from_api conf ;;
  call AccessionManager_load_accessions_from_csv conf ;;
  call UniProtExtractor_start conf ;;
  call PDBExtractor_start conf ;;
  call SequenceEmbeddingManager_start conf ;;
  call Structure3DiManager_start conf ;;
  call SequenceClustering_start conf ;;
  call StructuralSubClustering_start conf ;;
  call StructuralAlignmentManager_start conf ;;
  call SequenceGOAnnotation_start conf ;;
  call GoMultifunctionalityMetrics_start conf.

(** The [__main__] block: [main(config_path=args.config)]; the interpreter
    exits with status 0 when the script runs to its end and with status 1
    on an uncaught exception ([Exn] stands for the errors a call raises, not
    for a [SystemExit] raised on purpose). *)
Definition exit_status {A} (o : Outcome A) : Z :=
  match o with
  | Returned _ _ => 0
  | Raised _ _ => 1
  end.

Definition script (args_config : option string) (w : World)
  : Z * list Stage :=
  let '(o, log) := main args_config w [] in (exit_status o, log).

(** The stages in the order of the calls. *)
Definition pipeline : list Stage :=
  [AccessionManager_fetch_accessions_from_api;
   AccessionManager_load_accessions_from_csv;
   UniProtExtractor_start; PDBExtractor_start;
   SequenceEmbeddingManager_start; Structure3DiManager_start;
   SequenceClustering_start; StructuralSubClustering_start;
   StructuralAlignmentManager_start; SequenceGOAnnotation_start;
   GoMultifunctionalityMetrics_start].

(** The specification's words, as a relation: [in_order conf stages w
    started o] says that the stages of [stages] were run from world [w] one
    after the other, each one started only once its predecessor had
    returned, up to the first that raised; [started] are the stages that
    were started and [o] the outcome of the whole. *)
Inductive in_order (conf : Conf)
  : list Stage -> World -> list Stage -> Outcome unit -> Prop :=
| in_order_done : forall w, in_order conf [] w [] (Returned tt w)
| in_order_next : forall s rest w w' started o,
    run_stage s conf w = Returned tt w' ->
    in_order conf rest w' started o ->
    in_order conf (s :: rest) w (s :: started) o
| in_order_abort : forall s rest w e w',
    run_stage s conf w = Raised e w' ->
    in_order conf (s :: rest) w [s] (Raised e w').

End WithStages.

Arguments Returned {World Exn A}.
Arguments Raised {World Exn A}.

End Pipeline.

(** ** [embedding_task] ([esm.py]) *)
Module Esm.

(** The dictionary appended for one sequence. *)
Record EmbeddingRecord := mkRecord {
  rec_sequence : string;
  rec_embedding : list Float;
  rec_shape : list Z
}.

(** What the function does to the outside, in order. *)
Inductive Event :=
| ModelMoved
| Tokenized (sequence : string)
| ModelCalled (sequence : string)
| Printed (sequence : string).

Section WithModel.

Variables Tokens Exn : Type.

(** [torch.cuda.is_available()]. *)
Variable cuda_is_available : bool.

(** The exception of the CUDA guard. *)
Variable cuda_not_available : Exn.

(** [model.to(device)], which moves the caller's model to the GPU.
    [Some e]: it raised.  The statements around it build the device handle
    and switch gradient tracking off for the loop. *)
Variable to_device : option Exn.

(** The two statements before the [try]: [tokenizer(sequence, ...)] and the
    transfer of the tensors to the device.  [inr e]: one of them raised. *)
Variable tokenizer : string -> Tokens + Exn.

(** The body of the [try]: the call of [model] on the tokens, the mean over
    the hidden states and the fields of the record.  [inr e]: something was
    raised in it. *)
Variable model : Tokens -> (list Float * list Z) + Exn.

(** [isinstance(e, Exception)]: what [except Exception] catches; a
    [KeyboardInterrupt] or a [SystemExit] is not one. *)
Variable is_Exception : Exn -> bool.

(** The handler: the f-string is formatted and printed.  [Some e]: that
    raised. *)
Variable print : string -> Exn -> option Exn.

Inductive Result :=
| Return (embedding_records : list EmbeddingRecord)
| Raise (e : Exn).

(** The [for] loop, with the list built so far. *)
Fixpoint loop (sequences : list string)
  (embedding_records : list EmbeddingRecord) : Result * list Event :=
  match sequences with
  | [] => (Return embedding_records, [])
  | sequence :: rest =>
      match tokenizer sequence with
      | inr e => (Raise e, [Tokenized sequence])
      | inl tokens =>
          match model tokens with
          | inl (embeddings, embedding_shape) =>
              let record := mkRecord sequence embeddings embedding_shape in
              let '(r, ev) := loop rest (embedding_records ++ [record]) in
              (r, Tokenized sequence :: ModelCalled sequence :: ev)
          | inr e =>
              if is_Exception e then
                match print sequence e with
                | Some e' =>
                    (Raise e', [Tokenized sequence; ModelCalled sequence;
                                Printed sequence])
                | None =>
                    let '(r, ev) := loop rest embedding_records in
                    (r, Tokenized sequence :: ModelCalled sequence
                          :: Printed sequence :: ev)
                end
              else (Raise e, [Tokenized sequence; ModelCalled sequence])
          end
      end
  end.

Definition embedding_task (sequences : list string) : Result * list Event :=
  if negb cuda_is_available then (Raise cuda_not_available, [])
  else
    match to_device with
    | Some e => (Raise e, [ModelMoved])
    | None =>
        let '(r, ev) := loop sequences [] in (r, ModelMoved :: ev)
    end.

(** The records of the sequences whose [try] body ran to its end. *)
Definition embedded (sequence : string) : list EmbeddingRecord :=
  match tokenizer sequence with
  | inl tokens =>
      match model tokens with
      | inl (embeddings, embedding_shape) =>
          [mkRecord sequence embeddings embedding_shape]
      | inr _ => []
      end
  | inr _ => []
  end.

Definition tokenizes (sequence : string) : Prop :=
  exists tokens, tokenizer sequence = inl tokens.

(** What the [try] body raises on the sequence, if anything, is an
    [Exception], and the [print] that reports it returns. *)
Definition handled (sequence : string) : Prop :=
  forall tokens e,
    tokenizer sequence = inl tokens -> model tokens = inr e ->
    is_Exception e = true /\ print sequence e = None.

End WithModel.

Arguments Return {Exn}.
Arguments Raise {Exn}.

End Esm.

(** ** The FASTA example entry point ([examples/example_fasta/main.py]) *)
Module ExampleFasta.

(** The keys of [config.yaml] the function reads after the connection is
    made; [resolution_threshold] may be absent. *)
Record Config := mkConfig {
  resolution_threshold : option Float;
  data_dir : string;
  output_dir : string;
  max_workers : Z;
  merge_name : string
}.

(** [config.get(key, default)]. *)
Definition get {A} (v : option A) (default : A) : A :=
  match v with
  | Some x => x
  | None => default
  end.

Definition Qltb (x y : Q) : bool := negb (Qle_bool y x).

(** [PDBReference.resolution < threshold]: a NULL resolution compares to
    NULL and the row is not selected. *)
Definition resolution_filter (threshold : Float) (r : PDBReference.t) : bool :=
  match PDBReference.resolution r with
  | Some x => Qltb x threshold
  | None => false
  end.

(** [l[:stop]], Python's slice with an upper bound only. *)
Definition slice_stop {A} (l : list A) (stop : Z) : list A :=
  let len := Z.of_nat (List.length l) in
  let stop' := if stop <? 0 then Z.max 0 (len + stop) else Z.min stop len in
  firstn (Z.to_nat stop') l.

(** The calls made on the [FastaHandler]. *)
Inductive Call :=
| download_fastas (pdb_ids : list string) (max_workers : Z)
| merge_fastas (pdb_ids : list string) (merge_name : string).

(** [main()], from the query on: the method calls it makes, in order. *)
Definition main (config : Config) (pdb_references : list PDBReference.t)
  : list Call :=
  let query :=
    filter (resolution_filter (get (resolution_threshold config) (25 # 10)))
           pdb_references in
  let pdb_ids := map PDBReference.pdb_id query in
  [download_fastas (slice_stop pdb_ids (-500)) (max_workers config);
   merge_fastas pdb_ids (merge_name config)].

Definition query_ids (config : Config) (pdb_references : list PDBReference.t)
  : list string :=
  map PDBReference.pdb_id
      (filter (resolution_filter (get (resolution_threshold config) (25 # 10)))
              pdb_references).

End ExampleFasta.

(** ** The FASTA example, from the configuration on

    The whole body of [main] in [examples/example_fasta/main.py].  The
    functions and methods it calls act on the outside world and may raise;
    [config[k]] raises [KeyError] on a missing key; the calls are recorded
    in the order they are made. *)

(** The f-string of [DATABASE_URI], its five fields already formatted. *)
Definition database_uri (username password host port name : string) : string :=
  ("postgresql+psycopg2://" ++ username ++ ":" ++ password
     ++ "@" ++ host ++ ":" ++ port ++ "/" ++ name)%string.

Module ExampleFastaScript.

Section WithCollaborators.

(** The outside world, the values of the YAML document, the exceptions, and
    the objects the collaborators hand back. *)
Variables World Value Exn Engine Sessionmaker Session Handler : Type.

(** The exception of [config[key]] on a missing key. *)
Variable KeyError : string -> Exn.

(** What an f-string field makes of a value, and a Python float as a
    value. *)
Variable str : Value -> string.
Variable number : Float -> Value.

Definition Dict : Type := string -> option Value.

Inductive Outcome (A : Type) :=
| Returned (a : A) (w : World)
| Raised (e : Exn) (w : World).
Arguments Returned {A}.
Arguments Raised {A}.

(** The functions and methods [main] calls.  [new_session] is the call
    [Session()]; [query_all] is the chain
    [session.query(PDBReference).filter(PDBReference.resolution < t).all()]
    for the threshold [t]. *)
Variable read_yaml_config : string -> World -> Outcome Dict.
Variable create_engine : string -> World -> Outcome Engine.
Variable create_all : Engine -> World -> Outcome unit.
Variable sessionmaker : Engine -> World -> Outcome Sessionmaker.
Variable new_session : Sessionmaker -> World -> Outcome Session.
Variable query_all :
  Session -> Value -> World -> Outcome (list PDBReference.t).
Variable FastaHandler : Session -> Value -> Value -> World -> Outcome Handler.
Variable download_fastas :
  Handler -> list string -> Value -> World -> Outcome unit.
Variable merge_fastas :
  Handler -> list string -> Value -> World -> Outcome unit.

(** The calls, as they are recorded. *)
Inductive Event :=
| called_read_yaml_config (path : string)
| called_create_engine (uri : string)
| called_create_all
| called_sessionmaker
| called_Session
| called_query_all (threshold : Value)
| called_FastaHandler (data_dir output_dir : Value)
| called_download_fastas (pdb_ids : list string) (max_workers : Value)
| called_merge_fastas (pdb_ids : list string) (merge_name : Value).

Definition M (A : Type) : Type :=
  World -> list Event -> Outcome A * list Event.

Definition ret {A} (a : A) : M A := fun w log => (Returned a w, log).

Definition bind {A B} (c : M A) (k : A -> M B) : M B :=
  fun w log =>
    match c w log with
    | (Returned a w', log') => k a w' log'
    | (Raised e w', log') => (Raised e w', log')
    end.

Notation "x <- c ;; k" := (bind c (fun x => k))
  (at level 61, c at next level, right associativity).
Notation "c ;; k" := (bind c (fun _ => k))
  (at level 61, right associativity).

(** A call on a collaborator: recorded, then run. *)
Definition call {A} (e : Event) (f : World -> Outcome A) : M A :=
  fun w log => (f w, log ++ [e]).

(** [config[key]]. *)
Definition getitem (config : Dict) (key : string) : M Value :=
  fun w log =>
    (match config key with
     | Some v => Returned v w
     | None => Raised (KeyError key) w
     end, log).

(** [config.get(key, default)]. *)
Definition get (config : Dict) (key : string) (default : Value) : Value :=
  match config key with
  | Some v => v
  | None => default
  end.

Definition main : M unit :=
  config <- call (called_read_yaml_config "./config.yaml")
                 (read_yaml_config "./config.yaml") ;;
  username <- getitem config "DB_USERNAME" ;;
  password <- getitem config "DB_PASSWORD" ;;
  host <- getitem config "DB_HOST" ;;
  port <- getitem config "DB_PORT" ;;
  name <- getitem config "DB_NAME" ;;
  let DATABASE_URI :=
    database_uri (str username) (str password) (str host) (str port)
                 (str name) in
  engine <- call (called_create_engine DATABASE_URI)
                 (create_engine DATABASE_URI) ;;
  call called_create_all (create_all engine) ;;
  Session <- call called_sessionmaker (sessionmaker engine) ;;
  session <- call called_Session (new_session Session) ;;
  let threshold := get config "resolution_threshold" (number (25 # 10)) in
  query <- call (called_query_all threshold) (query_all session threshold) ;;
  let pdb_ids := map PDBReference.pdb_id query in
  data_dir <- getitem config "data_dir" ;;
  output_dir <- getitem config "output_dir" ;;
  fasta_downloader <- call (called_FastaHandler data_dir output_dir)
                           (FastaHandler session data_dir output_dir) ;;
  let first_ids := ExampleFasta.slice_stop pdb_ids (-500) in
  max_workers <- getitem config "max_workers" ;;
  call (called_download_fastas first_ids max_workers)
       (download_fastas fasta_downloader first_ids max_workers) ;;
  merge_name <- getitem config "merge_name" ;;
  call (called_merge_fastas pdb_ids merge_name)
       (merge_fastas fasta_downloader pdb_ids merge_name).

(** The keys [main] reads with [config[...]], in the order it reads them. *)
Definition required : list string :=
  ["DB_USERNAME"; "DB_PASSWORD"; "DB_HOST"; "DB_PORT"; "DB_NAME";
   "data_dir"; "output_dir"; "max_workers"; "merge_name"]%string.

Definition missing (config : Dict) (key : string) : bool :=
  match config key with
  | Some _ => false
  | None => true
  end.

(** A call that returns in every world. *)
Definition returns {A} (f : World -> Outcome A) : Prop :=
  forall w, exists a w', f w = Returned a w'.

End WithCollaborators.

Arguments Returned {World Exn A}.
Arguments Raised {World Exn A}.

End ExampleFastaScript.

(** ** [OperatorBase.__init__] ([operations/base/operator.py]) *)
Module Operator.

Section WithCollaborators.

(** The outside world, the values of the configuration, the exceptions, and
    the objects the collaborators hand back. *)
Variables World Value Exn Logger Manager Session File Constants : Type.

(** The exception of [conf[key]] on a missing key. *)
Variable KeyError : string -> Exn.

Definition Conf : Type := string -> option Value.

Inductive Outcome (A : Type) :=
| Returned (a : A) (w : World)
| Raised (e : Exn) (w : World).
Arguments Returned {A}.
Arguments Raised {A}.

(** The functions and methods the constructor calls. *)
Variable setup_logger : string -> World -> Outcome Logger.
Variable logger_info : Logger -> string -> World -> Outcome unit.
Variable DatabaseManager : Conf -> World -> Outcome Manager.
Variable get_session : Manager -> World -> Outcome Session.
Variable open : Value -> World -> Outcome File.
Variable safe_load : File -> World -> Outcome Constants.
Variable handle_structural_complexity_levels :
  Session -> Constants -> World -> Outcome unit.
Variable handle_structural_alignment_types :
  Session -> Constants -> World -> Outcome unit.

(** The calls, as they are recorded. *)
Inductive Event :=
| called_setup_logger (class_name : string)
| called_info (message : string)
| called_DatabaseManager
| called_get_session
| called_open (path : Value)
| called_safe_load
| called_handle_structural_complexity_levels
| called_handle_structural_alignment_types.

Definition M (A : Type) : Type :=
  World -> list Event -> Outcome A * list Event.

Definition ret {A} (a : A) : M A := fun w log => (Returned a w, log).

Definition bind {A B} (c : M A) (k : A -> M B) : M B :=
  fun w log =>
    match c w log with
    | (Returned a w', log') => k a w' log'
    | (Raised e w', log') => (Raised e w', log')
    end.

Notation "x <- c ;; k" := (bind c (fun x => k))
  (at level 61, c at next level, right associativity).
Notation "c ;; k" := (bind c (fun _ => k))
  (at level 61, right associativity).

(** A call on a collaborator: recorded, then run. *)
Definition call {A} (e : Event) (f : World -> Outcome A) : M A :=
  fun w log => (f w, log ++ [e]).

(** [conf[key]]. *)
Definition getitem (conf : Conf) (key : string) : M Value :=
  fun w log =>
    (match conf key with
     | Some v => Returned v w
     | None => Raised (KeyError key) w
     end, log).

(** The attributes the constructor sets. *)
Record OperatorBase := mkOperatorBase {
  self_conf : Conf;
  self_logger : Logger;
  self_session : Session
}.

(** [__init__(self, conf)]; [class_name] is [self.__class__.__name__]. *)
Definition __init__ (class_name : string) (conf : Conf) : M OperatorBase :=
  logger <- call (called_setup_logger class_name) (setup_logger class_name) ;;
  call (called_info ("Initializing " ++ class_name)%string)
       (logger_info logger ("Initializing " ++ class_name)%string) ;;
  db_manager <- call called_DatabaseManager (DatabaseManager conf) ;;
  session <- call called_get_session (get_session db_manager) ;;
  path <- getitem conf "constants" ;;
  call (called_open path) (open path) ;;
  path' <- getitem conf "constants" ;;
  handle <- call (called_open path') (open path') ;;
  constants <- call called_safe_load (safe_load handle) ;;
  call called_handle_structural_complexity_levels
       (handle_structural_complexity_levels session constants) ;;
  call called_handle_structural_alignment_types
       (handle_structural_alignment_types session constants) ;;
  ret (mkOperatorBase conf logger session).

(** The calls of a constructor that runs to its end. *)
Definition all_calls (class_name : string) (path : Value) : list Event :=
  [called_setup_logger class_name;
   called_info ("Initializing " ++ class_name)%string;
   called_DatabaseManager; called_get_session;
   called_open path; called_open path; called_safe_load;
   called_handle_structural_complexity_levels;
   called_handle_structural_alignment_types].

End WithCollaborators.

Arguments Returned {World Exn A}.
Arguments Raised {World Exn A}.

End Operator.

(** * Vocabulary of the statements *)

(** ** The pipeline *)

Arguments Pipeline.main {World Conf Exn}.
Arguments Pipeline.script {World Conf Exn}.
Arguments Pipeline.in_order {World Conf Exn}.
Arguments Pipeline.exit_status {World Exn A}.

(** Adjacent repetitions removed: the phases a list of stages goes
    through. *)
Fixpoint squash (l : list Pipeline.Phase) : list Pipeline.Phase :=
  match l with
  | [] => []
  | p :: l' =>
      match l' with
      | q :: _ =>
          if Nat.eqb (Pipeline.phase_rank p) (Pipeline.phase_rank q)
          then squash l' else p :: squash l'
      | [] => [p]
      end
  end.

(** The calls of [main] as a loop over the list of stages. *)
Fixpoint run_all {World Conf Exn : Type}
  (run_stage : Pipeline.Stage -> Conf -> World -> Pipeline.Outcome World Exn unit)
  (conf : Conf) (stages : list Pipeline.Stage)
  : Pipeline.M World Exn unit :=
  match stages with
  | [] => Pipeline.ret World Exn tt
  | s :: rest =>
      match rest with
      | [] => Pipeline.call World Conf Exn run_stage s conf
      | _ :: _ =>
          Pipeline.bind World Exn
            (Pipeline.call World Conf Exn run_stage s conf)
            (fun _ => run_all run_stage conf rest)
      end
  end.

(** ** [embedding_task] *)

Arguments Esm.embedding_task {Tokens Exn}.
Arguments Esm.loop {Tokens Exn}.
Arguments Esm.embedded {Tokens Exn}.
Arguments Esm.tokenizes {Tokens Exn}.
Arguments Esm.handled {Tokens Exn}.

(** ** The task queue *)

Module SAQ := StructuralAlignmentQueue.
Module SAR := StructuralAlignmentResults.
Module TQ := TaskQueue.

(** [changes P rows rows']: the two lists have the same rows, position by
    position, up to rows related by [P]. *)
Definition changes (P : SAQ.t -> SAQ.t -> Prop) : list SAQ.t -> list SAQ.t -> Prop :=
  Forall2 (fun t t' => t' = t \/ P t t').

(** The row of [task_id] is in Error with its retries used up. *)
Definition dead (max task_id : Z) (db : Store) : Prop :=
  exists t, TQ.get_row task_id (structural_alignment_queue db) = Some t
            /\ SAQ.state t = Error /\ max < SAQ.retry_count t.

(** The rows a pair still has in flight. *)
Definition open_for (max cluster_entry alignment_type : Z) (t : SAQ.t) : bool :=
  TQ.same_pair cluster_entry alignment_type t && negb (TQ.terminal max t).

















(** ** The clustering engine *)

Module CE := ClusteringEngine.

(** ** More on [embedding_task] *)

(** The sequences for which the body of the [try] runs to its end. *)
Definition embeds {Tokens Exn} (tokenizer : string -> Tokens + Exn)
  (model : Tokens -> (list Float * list Z) + Exn) (sequence : string) : bool :=
  match tokenizer sequence with
  | inl tokens =>
      match model tokens with
      | inl _ => true
      | inr _ => false
      end
  | inr _ => false
  end.

(** What one pass of the loop does to the outside. *)
Definition events_of {Tokens Exn} (tokenizer : string -> Tokens + Exn)
  (model : Tokens -> (list Float * list Z) + Exn) (sequence : string)
  : list Esm.Event :=
  match tokenizer sequence with
  | inl tokens =>
      match model tokens with
      | inl _ => [Esm.Tokenized sequence; Esm.ModelCalled sequence]
      | inr _ => [Esm.Tokenized sequence; Esm.ModelCalled sequence;
                  Esm.Printed sequence]
      end
  | inr _ => [Esm.Tokenized sequence]
  end.

(** The sequences reported by a [print]. *)
Definition printed (events : list Esm.Event) : list string :=
  flat_map (fun e => match e with
                     | Esm.Printed sequence => [sequence]
                     | _ => []
                     end) events.

(** ** The FASTA example and the operator constructor *)

Arguments ExampleFastaScript.main
  {World Value Exn Engine Sessionmaker Session Handler}.
Arguments ExampleFastaScript.missing {Value}.
Arguments ExampleFastaScript.returns {World Exn A}.
Arguments ExampleFastaScript.called_read_yaml_config {Value}.
Arguments ExampleFastaScript.called_create_engine {Value}.
Arguments ExampleFastaScript.called_create_all {Value}.
Arguments ExampleFastaScript.called_sessionmaker {Value}.
Arguments ExampleFastaScript.called_Session {Value}.
Arguments ExampleFastaScript.called_query_all {Value}.
Arguments ExampleFastaScript.called_FastaHandler {Value}.
Arguments ExampleFastaScript.called_download_fastas {Value}.
Arguments ExampleFastaScript.called_merge_fastas {Value}.

Arguments Operator.__init__
  {World Value Exn Logger Manager Session File Constants}.
Arguments Operator.all_calls {Value}.
Arguments Operator.called_setup_logger {Value}.
Arguments Operator.called_info {Value}.
Arguments Operator.called_DatabaseManager {Value}.
Arguments Operator.called_get_session {Value}.
Arguments Operator.called_open {Value}.
Arguments Operator.self_conf {Value Logger Session}.
Arguments Operator.self_logger {Value Logger Session}.
Arguments Operator.self_session {Value Logger Session}.


(** ** Strings *)

(** [c in s]. *)
Fixpoint occurs (c : ascii) (s : string) : bool :=
  match s with
  | EmptyString => false
  | String x s' => Ascii.eqb c x || occurs c s'
  end.

(** * Example data *)

(** ** Sequences and stores *)

(** Two distinct 72-character strings with the same MD5 digest. *)
Definition collision_a : string :=
  "TEXTCOLLBYfGiJUETHQ4hAcKSMd5zYpgqf1YRDhkmxHkhPWptrkoyz28wnI9V0aHeAuaKnak".
Definition collision_b : string :=
  "TEXTCOLLBYfGiJUETHQ4hEcKSMd5zYpgqf1YRDhkmxHkhPWptrkoyz28wnI9V0aHeAuaKnak".

(** A store the declared constraints accept: cluster 1 has the single entry
    7, and the queue row and the result row carry [cluster_entry_id = 1]. *)
Definition fk_store : Store :=
  mkStore
    [Sequence.__init__ 10 (Some "MKV"%string) None]
    [Cluster.mk 1 0]
    [ClusterEntry.mk 7 (Some 1) 10 (Some true) (Some 3) None 0]
    [StructuralAlignmentType.mk 1 "CE-align" None (Some "ce_align"%string)]
    [StructuralAlignmentQueue.new_row 1 0 1 1]
    [StructuralAlignmentResults.mk 1 (Some 1) (Some (12 # 10)) None None None
       None None None None None None].


(** A store the declared constraints accept although cluster 1 has two
    representatives. *)
Definition two_representatives_store : Store :=
  mkStore
    [Sequence.__init__ 10 (Some "MKV"%string) None;
     Sequence.__init__ 11 (Some "MKL"%string) None]
    [Cluster.mk 1 0]
    [ClusterEntry.mk 1 (Some 1) 10 (Some true) (Some 3) None 0;
     ClusterEntry.mk 2 (Some 1) 11 (Some true) (Some 3) None 0]
    [] [] [].

(** ** Runs of the queue, with [max_retries = 2] *)


Definition store_after_claim (max : Z) (worker now : Z) (db : Store) : Store :=
  match TQ.claim max worker now db with
  | Some (_, db') => db'
  | None => db
  end.

(** One task, enqueued, claimed, and failed once. *)
Definition run_a1 : Store := TQ.enqueue 2 100 1 1 empty_store.
Definition run_a2 : Store := store_after_claim 2 7 101 run_a1.
Definition run_a3 : Store := TQ.fail 2 102 1 "alignment failed" run_a2.

(** The task claimed again after its first failure:
    [retry_count = 1 = max_retries - 1]. *)
Definition run_c : Store := store_after_claim 2 7 103 run_a3.

Definition run_c_task : SAQ.t :=
  SAQ.mk 1 1 1 Processing 1 (Some "alignment failed"%string) 100 103.




(** ** A clustering run *)

(** Five sequences in one group; sequence 12 has the highest score. *)
Definition five_sequences : list CE.Member :=
  [CE.mkMember 10 120; CE.mkMember 11 118; CE.mkMember 12 121;
   CE.mkMember 13 119; CE.mkMember 14 125].

Definition central_12 : CE.Similarity :=
  CE.mkSimilarity (fun _ => 0)
                  (fun s => if s =? 12 then 9 else 4)
                  (fun a b => if a =? b then 1 # 1 else 8 # 10).

Definition five_clustered : Store :=
  match CE.cluster (fun _ => Some central_12) 50 five_sequences empty_store with
  | inr db => db
  | inl _ => empty_store
  end.

(** ** A pipeline whose PDB extraction fails *)

(** The world is the list of the stages that have returned. *)
Definition failing_extraction (s : Pipeline.Stage) (conf : unit)
  (w : list Pipeline.Stage)
  : Pipeline.Outcome (list Pipeline.Stage) string unit :=
  match s with
  | Pipeline.PDBExtractor_start => Pipeline.Raised "ConnectionError"%string w
  | _ => Pipeline.Returned tt (w ++ [s])
  end.

Definition always_returns (s : Pipeline.Stage) (conf : unit)
  (w : list Pipeline.Stage)
  : Pipeline.Outcome (list Pipeline.Stage) string unit :=
  Pipeline.Returned tt (w ++ [s]).

Definition reads_config (config_path : option string)
  (w : list Pipeline.Stage)
  : Pipeline.Outcome (list Pipeline.Stage) string unit :=
  match config_path with
  | Some _ => Pipeline.Returned tt w
  | None => Pipeline.Raised "TypeError"%string w
  end.

(** ** Inputs of [embedding_task] and of the FASTA example *)

(** Every exception is an [Exception], and [print] returns. *)
Definition only_Exceptions (e : string) : bool := true.
Definition quiet_print (sequence e : string) : option string := None.

(** A tokenizer that refuses its input, and a model that is never reached. *)
Definition refusing_tokenizer (s : string) : unit + string :=
  inr "ValueError"%string.
Definition idle_model (t : unit) : (list Float * list Z) + string :=
  inl ([], []).

(** A model that fails on the empty token list only. *)
Definition char_tokenizer (s : string) : list ascii + string :=
  inl (list_ascii_of_string s).
Definition picky_model (t : list ascii) : (list Float * list Z) + string :=
  match t with
  | [] => inr "RuntimeError"%string
  | _ :: _ => inl ([1 # 2], [1; Z.of_nat (List.length t)])
  end.

(** Three references, two of them below the default threshold 2.5. *)
Definition fasta_config : ExampleFasta.Config :=
  ExampleFasta.mkConfig None "data" "out" 4 "merged".

Definition fasta_refs : list PDBReference.t :=
  [PDBReference.mk 1 "1abc" (Some (18 # 10));
   PDBReference.mk 2 "2xyz" (Some (31 # 10));
   PDBReference.mk 3 "3def" None;
   PDBReference.mk 4 "4ghi" (Some (2 # 1))].

(** [n] references named 0, 1, ..., all at resolution 1.5. *)
Definition numbered_refs (n : nat) : list PDBReference.t :=
  map (fun i => PDBReference.mk (Z.of_nat i)
                  (NilEmpty.string_of_uint (Nat.to_uint i))
                  (Some (15 # 10)))
      (seq 0 n).

(** ** Configurations *)

(** A configuration of the FASTA example without [merge_name] and without
    [resolution_threshold]; every value is a string. *)
Definition config_without_merge_name (key : string) : option string :=
  if String.eqb key "DB_USERNAME" then Some "alice"%string
  else if String.eqb key "DB_PASSWORD" then Some "secret"%string
  else if String.eqb key "DB_HOST" then Some "localhost"%string
  else if String.eqb key "DB_PORT" then Some "5432"%string
  else if String.eqb key "DB_NAME" then Some "pdb"%string
  else if String.eqb key "data_dir" then Some "data"%string
  else if String.eqb key "output_dir" then Some "out"%string
  else if String.eqb key "max_workers" then Some "4"%string
  else None.

(** Collaborators of the FASTA example that all return, the world counting
    the calls; the query finds the references of [fasta_refs]. *)
Definition key_error (key : string) : string := ("KeyError: " ++ key)%string.

Definition fasta_returning {A} (a : A) (w : nat)
  : ExampleFastaScript.Outcome nat string A :=
  ExampleFastaScript.Returned a (S w).

Definition as_value (x : Float) : string := "2.5"%string.

(** A configuration of an operator with its [constants] path, and
    collaborators that all return, the world counting the calls. *)
Definition operator_conf (key : string) : option string :=
  if String.eqb key "constants" then Some "constants.yaml"%string else None.

Definition returning {A} (a : A) (w : nat) : Operator.Outcome nat string A :=
  Operator.Returned a (S w).

(** ** Rewriting the state of a queue row *)

(** The row with [state] and [retry_count] replaced. *)
Definition with_state (state retry_count : Z) (t : StructuralAlignmentQueue.t)
  : StructuralAlignmentQueue.t :=
  StructuralAlignmentQueue.mk
    (StructuralAlignmentQueue.id t)
    (StructuralAlignmentQueue.cluster_entry_id t)
    (StructuralAlignmentQueue.alignment_type_id t)
    state retry_count
    (StructuralAlignmentQueue.error_message t)
    (StructuralAlignmentQueue.created_at t)
    (StructuralAlignmentQueue.updated_at t).

(** * Properties *)

(** ** Shared lemmas *)

Lemma memZ_In (x : Z) (l : list Z) : memZ x l = true <-> In x l.
Proof.
  unfold memZ. rewrite existsb_exists. split.
  - intros [y [Hy Heq]]. apply Z.eqb_eq in Heq. now subst.
  - intros H. exists x. split; [assumption | apply Z.eqb_refl].
Qed.

Lemma memZ_false (x : Z) (l : list Z) : memZ x l = false <-> ~ In x l.
Proof.
  rewrite <- memZ_In. destruct (memZ x l); split; intros; congruence.
Qed.

Lemma distinctZ_NoDup (l : list Z) : distinctZ l = true <-> NoDup l.
Proof.
  induction l as [|x l IH]; simpl.
  - split; [constructor | reflexivity].
  - rewrite andb_true_iff, negb_true_iff, memZ_false, IH. split.
    + intros [H1 H2]. now constructor.
    + intros H. inversion H; subst. now split.
Qed.

Lemma next_id_above (ids : list Z) (x : Z) :
  In x ids -> x < TaskQueue.next_id ids.
Proof.
  unfold TaskQueue.next_id. induction ids as [|y ids IH]; cbn [fold_right In].
  - contradiction.
  - intros [-> | H]; [lia | specialize (IH H); lia].
Qed.

Lemma next_id_fresh (ids : list Z) : ~ In (TaskQueue.next_id ids) ids.
Proof. intros H. apply next_id_above in H. lia. Qed.

(** RFC 1321 test suite. *)
Example md5_empty : MD5.md5 "" = "d41d8cd98f00b204e9800998ecf8427e"%string.
Proof. vm_compute. reflexivity. Qed.

Example md5_abc : MD5.md5 "abc" = "900150983cd24fb0d6963f7d28e17f72"%string.
Proof. vm_compute. reflexivity. Qed.

Example md5_alphabet :
  MD5.md5 "abcdefghijklmnopqrstuvwxyz"
  = "c3fcd3d76192e4007dfb496cca67e13b"%string.
Proof. vm_compute. reflexivity. Qed.

Example md5_two_blocks :
  MD5.md5 "12345678901234567890123456789012345678901234567890123456789012345678901234567890"
  = "57edf4a22be3c955ac49da2e2107b67a"%string.
Proof. vm_compute. reflexivity. Qed.

(** ** [Sequence]: the content hash *)

Lemma le_bytes_length (n : nat) (x : Z) : List.length (MD5.le_bytes n x) = n.
Proof.
  revert x. induction n as [|n IH]; intros x; simpl;
    [reflexivity | now rewrite IH].
Qed.

Lemma digest_bytes_length (msg : list Z) :
  List.length (MD5.digest_bytes msg) = 16%nat.
Proof.
  unfold MD5.digest_bytes. rewrite !length_app, !le_bytes_length. reflexivity.
Qed.

Lemma string_of_list_ascii_length (l : list ascii) :
  String.length (string_of_list_ascii l) = List.length l.
Proof. induction l as [|c l IH]; simpl; [reflexivity | now rewrite IH]. Qed.

Lemma hex_of_bytes_length (bs : list Z) :
  String.length (MD5.hex_of_bytes bs) = (2 * List.length bs)%nat.
Proof.
  unfold MD5.hex_of_bytes. rewrite string_of_list_ascii_length.
  induction bs as [|b bs IH]; simpl; [reflexivity | rewrite IH; lia].
Qed.

Lemma md5_length (s : string) : String.length (MD5.md5 s) = 32%nat.
Proof.
  unfold MD5.md5. now rewrite hex_of_bytes_length, digest_bytes_length.
Qed.

Example md5_collision_a :
  MD5.md5 collision_a = "faad49866e9498fc1719f5289e7a0269"%string.
Proof. vm_compute. reflexivity. Qed.

(** C6, as stated, fails: two [Sequence] records built from unequal strings
    receive the same [sequence_hash]. *)
Lemma sequence_hash_collision :
  collision_a <> collision_b
  /\ Sequence.sequence_hash (Sequence.__init__ 1 (Some collision_a) None)
     = Sequence.sequence_hash (Sequence.__init__ 2 (Some collision_b) None).
Proof.
  split.
  - intros H. apply (f_equal (fun s => String.eqb s collision_b)) in H.
    vm_compute in H. discriminate.
  - vm_compute. reflexivity.
Qed.

(** The unique index then refuses the second of the two sequences. *)
Example collision_rejected_by_unique_index :
  sequences_ok
    (mkStore [Sequence.__init__ 1 (Some collision_a) None;
              Sequence.__init__ 2 (Some collision_b) None] [] [] [] [] [])
  = false.
Proof. vm_compute. reflexivity. Qed.

(** C6 (amended): on construction [sequence_hash] is the MD5 digest of the
    sequence string, whatever hash the caller supplied: a function of the
    string alone, 32 hexadecimal characters long.  Records built from equal
    strings therefore receive equal hashes, and the unique index on
    [sequence_hash] refuses to hold two of them. *)
Theorem sequence_hash_is_md5_of_sequence :
  forall (id1 id2 : Z) (h1 h2 : option string) (s : string),
    Sequence.sequence_hash (Sequence.__init__ id1 (Some s) h1)
      = Some (MD5.md5 s)
    /\ String.length (MD5.md5 s) = 32%nat
    /\ Sequence.sequence_hash (Sequence.__init__ id1 (Some s) h1)
       = Sequence.sequence_hash (Sequence.__init__ id2 (Some s) h2)
    /\ sequences_ok
         (mkStore [Sequence.__init__ id1 (Some s) h1;
                   Sequence.__init__ id2 (Some s) h2] [] [] [] [] [])
       = false.
Proof.
  intros id1 id2 h1 h2 s.
  unfold Sequence.__init__, Sequence.func_md5.
  cbn [Sequence.id Sequence.sequence Sequence.sequence_hash option_map].
  split; [reflexivity|]. split; [apply md5_length|]. split; [reflexivity|].
  generalize (MD5.md5 s) as d. intros d.
  unfold sequences_ok, sequence_ids, present.
  cbn [sequences map flat_map Sequence.id Sequence.sequence
       Sequence.sequence_hash app distinct_string mem_string existsb].
  rewrite String.eqb_refl. cbn [orb negb andb]. apply andb_false_r.
Qed.

(** ** Foreign keys of the queue and result tables *)

(** C5, as stated, fails: the constraints accept a queue row and a result
    row whose [cluster_entry_id] is the id of no cluster entry, and refuse a
    queue row that names the existing cluster entry 7. *)
Lemma cluster_entry_id_not_an_entry :
  schema_ok fk_store = true
  /\ (exists q, In q (structural_alignment_queue fk_store)
        /\ ~ In (StructuralAlignmentQueue.cluster_entry_id q)
                (cluster_entry_ids fk_store))
  /\ (exists r c, In r (structural_alignment_results fk_store)
        /\ StructuralAlignmentResults.cluster_entry_id r = Some c
        /\ ~ In c (cluster_entry_ids fk_store))
  /\ schema_ok
       (TaskQueue.with_queue fk_store
          [StructuralAlignmentQueue.new_row 1 0 7 1]) = false.
Proof.
  split; [vm_compute; reflexivity|]. split; [|split].
  - eexists. split; [left; reflexivity|]. simpl. intros [H | []]. discriminate.
  - eexists. exists 1. split; [left; reflexivity|]. split; [reflexivity|].
    simpl. intros [H | []]. discriminate.
  - vm_compute. reflexivity.
Qed.

(** C5 (amended): in a store the declared constraints accept, every queue
    row pairs a [clusters] row (its [cluster_entry_id] is a [clusters.id])
    with a [structural_alignment_types] row, and every result row with a
    non-NULL [cluster_entry_id] names a [clusters] row as well. *)
Theorem queue_row_references_cluster_and_type :
  forall db : Store,
    schema_ok db = true ->
    (forall q, In q (structural_alignment_queue db) ->
       In (StructuralAlignmentQueue.cluster_entry_id q) (cluster_ids db)
       /\ In (StructuralAlignmentQueue.alignment_type_id q)
             (alignment_type_ids db))
    /\ (forall r c, In r (structural_alignment_results db) ->
          StructuralAlignmentResults.cluster_entry_id r = Some c ->
          In c (cluster_ids db)).
Proof.
  intros db H. unfold schema_ok in H.
  rewrite !andb_true_iff in H. destruct H as [[_ Hq] Hr].
  unfold structural_alignment_queue_ok in Hq.
  unfold structural_alignment_results_ok in Hr.
  apply andb_true_iff in Hq. destruct Hq as [_ Hq].
  apply andb_true_iff in Hr. destruct Hr as [_ Hr].
  rewrite forallb_forall in Hq, Hr.
  split.
  - intros q Hin. specialize (Hq q Hin).
    apply andb_true_iff in Hq. destruct Hq as [H1 H2].
    now rewrite <- !memZ_In.
  - intros r c Hin Hc. specialize (Hr r Hin).
    rewrite Hc in Hr. simpl in Hr. now apply memZ_In.
Qed.

(** The theorem at [fk_store]. *)
Lemma queue_row_references_cluster_and_type_witness :
  schema_ok fk_store = true
  /\ (forall q, In q (structural_alignment_queue fk_store) ->
        In (StructuralAlignmentQueue.cluster_entry_id q) (cluster_ids fk_store)
        /\ In (StructuralAlignmentQueue.alignment_type_id q)
              (alignment_type_ids fk_store)).
Proof.
  split; [vm_compute; reflexivity|].
  apply (queue_row_references_cluster_and_type fk_store).
  vm_compute; reflexivity.
Defined.

(** ** The FASTA example: what is downloaded and what is merged *)




(** With 502 selected references, the first two are downloaded and all 502
    are merged. *)
Example fasta_main_502 :
  exists merged,
    ExampleFasta.main fasta_config (numbered_refs 502)
    = [ExampleFasta.download_fastas ["0"; "1"]%string 4;
       ExampleFasta.merge_fastas merged "merged"]
    /\ List.length merged = 502%nat.
Proof. eexists. split; vm_compute; reflexivity. Qed.

(** ** [embedding_task] *)

Lemma flat_map_length_le {A B} (f : A -> list B) (l : list A) :
  (forall x, (List.length (f x) <= 1)%nat) ->
  (List.length (flat_map f l) <= List.length l)%nat.
Proof.
  intros Hf. induction l as [|x l IH]; simpl; [lia|].
  rewrite length_app. specialize (Hf x). lia.
Qed.

Lemma embedded_at_most_one {Tokens Exn}
  (tokenizer : string -> Tokens + Exn)
  (model : Tokens -> (list Float * list Z) + Exn) (s : string) :
  (List.length (Esm.embedded tokenizer model s) <= 1)%nat.
Proof.
  unfold Esm.embedded. destruct (tokenizer s) as [t|]; simpl; [|lia].
  destruct (model t) as [[? ?]|]; simpl; lia.
Qed.

Section Loop.

Context {Tokens Exn : Type}.
Variable tokenizer : string -> Tokens + Exn.
Variable model : Tokens -> (list Float * list Z) + Exn.
Variable is_Exception : Exn -> bool.
Variable print : string -> Exn -> option Exn.

Local Abbreviation loop := (Esm.loop tokenizer model is_Exception print).

(** A sequence that passes through the loop: it is tokenized, and a failure
    of the [try] body on it is caught and reported. *)
Local Abbreviation passes s :=
  (Esm.tokenizes tokenizer s
   /\ Esm.handled tokenizer model is_Exception print s).

(** The loop started with a non-empty list is the loop started with the
    empty list, the records found so far put in front. *)
Lemma loop_acc (sequences : list string) :
  forall acc,
    loop sequences acc
    = match loop sequences [] with
      | (Esm.Return r, ev) => (Esm.Return (acc ++ r), ev)
      | (Esm.Raise e, ev) => (Esm.Raise e, ev)
      end.
Proof.
  induction sequences as [|s rest IH]; intros acc.
  - simpl. now rewrite app_nil_r.
  - cbn [Esm.loop]. destruct (tokenizer s) as [tokens|e]; [|reflexivity].
    destruct (model tokens) as [[emb shp]|e].
    + rewrite (IH (acc ++ [Esm.mkRecord s emb shp])).
      rewrite (IH ([] ++ [Esm.mkRecord s emb shp])).
      destruct (Esm.loop tokenizer model is_Exception print rest [])
        as [[r|e'] ev]; [|reflexivity].
      cbn [app]. now rewrite <- app_assoc.
    + destruct (is_Exception e); [|reflexivity].
      destruct (print s e); [reflexivity|].
      rewrite (IH acc).
      destruct (Esm.loop tokenizer model is_Exception print rest [])
        as [[r|e'] ev]; reflexivity.
Qed.

(** The loop over two lists one after the other. *)
Lemma loop_app (l1 l2 : list string) :
  forall acc,
    loop (l1 ++ l2) acc
    = match loop l1 acc with
      | (Esm.Return r1, ev1) =>
          (fst (loop l2 r1), ev1 ++ snd (loop l2 r1))
      | (Esm.Raise e, ev1) => (Esm.Raise e, ev1)
      end.
Proof.
  induction l1 as [|s rest IH]; intros acc.
  - cbn [app Esm.loop].
    now destruct (Esm.loop tokenizer model is_Exception print l2 acc).
  - cbn [app Esm.loop]. destruct (tokenizer s) as [tokens|e]; [|reflexivity].
    destruct (model tokens) as [[emb shp]|e].
    + rewrite IH.
      destruct (Esm.loop tokenizer model is_Exception print rest _)
        as [[r1|e'] ev1]; reflexivity.
    + destruct (is_Exception e); [|reflexivity].
      destruct (print s e); [reflexivity|].
      rewrite IH.
      destruct (Esm.loop tokenizer model is_Exception print rest acc)
        as [[r1|e'] ev1]; reflexivity.
Qed.

(** With every sequence passing, the loop returns the list it was given
    followed by the records of the sequences the model embedded. *)
Lemma loop_returns (sequences : list string) :
  (forall s, In s sequences -> passes s) ->
  forall acc, exists ev,
    loop sequences acc
    = (Esm.Return (acc ++ flat_map (Esm.embedded tokenizer model) sequences),
       ev).
Proof.
  induction sequences as [|s rest IH]; intros Hpass acc.
  - exists []. simpl. now rewrite app_nil_r.
  - assert (Hrest : forall x, In x rest ->
              Esm.tokenizes tokenizer x
              /\ Esm.handled tokenizer model is_Exception print x)
      by (intros x Hx; apply Hpass; now right).
    destruct (Hpass s (or_introl eq_refl)) as [[tokens Ht] Hh].
    cbn [Esm.loop flat_map]. unfold Esm.embedded at 1. rewrite Ht.
    destruct (model tokens) as [[emb shp]|e] eqn:Hm.
    + destruct (IH Hrest (acc ++ [Esm.mkRecord s emb shp])) as [ev Hev].
      rewrite Hev. eexists. now rewrite <- app_assoc.
    + destruct (Hh tokens e Ht Hm) as [-> ->].
      destruct (IH Hrest acc) as [ev Hev]. rewrite Hev. eexists. reflexivity.
Qed.

(** After sequences that pass, the loop goes on with the rest of the
    input. *)
Lemma loop_after_prefix (pre rest : list string) :
  (forall x, In x pre -> passes x) ->
  forall acc, exists acc' ev,
    loop (pre ++ rest) acc
    = (fst (loop rest acc'), ev ++ snd (loop rest acc')).
Proof.
  intros Hpre acc. rewrite loop_app.
  destruct (loop_returns pre Hpre acc) as [ev Hev]. rewrite Hev.
  eexists. exists ev. reflexivity.
Qed.

(** What a loop that returns has gone through. *)
Lemma loop_return_inv (sequences : list string) :
  forall acc recs ev,
    loop sequences acc = (Esm.Return recs, ev) ->
    recs = acc ++ flat_map (Esm.embedded tokenizer model) sequences
    /\ ev = flat_map (events_of tokenizer model) sequences
    /\ forall s, In s sequences -> Esm.tokenizes tokenizer s.
Proof.
  induction sequences as [|s rest IH]; intros acc recs ev.
  - cbn [Esm.loop flat_map]. intros [= <- <-].
    rewrite app_nil_r. repeat split. intros s [].
  - cbn [Esm.loop flat_map]. unfold Esm.embedded at 1, events_of at 1.
    destruct (tokenizer s) as [tokens|e] eqn:Ht; [|discriminate].
    destruct (model tokens) as [[emb shp]|e].
    + destruct (Esm.loop tokenizer model is_Exception print rest _)
        as [r' ev'] eqn:Hl.
      intros [= -> <-].
      destruct (IH _ _ _ Hl) as (-> & -> & Htok).
      rewrite <- app_assoc. repeat split.
      intros x [<- | Hx]; [now exists tokens | now apply Htok].
    + destruct (is_Exception e); [|discriminate].
      destruct (print s e); [discriminate|].
      destruct (Esm.loop tokenizer model is_Exception print rest acc)
        as [r' ev'] eqn:Hl.
      intros [= -> <-].
      destruct (IH _ _ _ Hl) as (-> & -> & Htok). repeat split.
      intros x [<- | Hx]; [now exists tokens | now apply Htok].
Qed.

End Loop.

(** C9, as stated, fails: with CUDA available, an exception raised while
    tokenizing a sequence is not caught; it reaches the caller and no list
    is returned. *)
Lemma embedding_task_propagates_tokenizer_error :
  Esm.embedding_task true "CUDA is not available"%string None
    refusing_tokenizer idle_model only_Exceptions quiet_print ["MKV"%string]
  = (Esm.Raise "ValueError"%string, [Esm.ModelMoved; Esm.Tokenized "MKV"]).
Proof. reflexivity. Qed.

(** C9 (amended): without CUDA the function raises before the model is
    moved or any sequence touched.  With CUDA, an exception raised while
    the model is moved to the device reaches the caller.  Past that, and
    as long as every sequence is tokenized and what the body of the [try]
    raises is an [Exception] that the handler manages to print, the
    function returns, in input order, exactly one record per sequence for
    which the body of the [try] ran to its end; the other sequences are
    skipped, so the list is no longer than the input.  The first sequence
    that leaves this path ends the call with an exception: the one raised
    by its tokenization, which sits before the [try]; the one raised in
    the [try] when it is not an [Exception]; or the one raised by the
    [print] of the handler. *)
Theorem embedding_task_skips_model_failures :
  forall (Tokens Exn : Type) (cuda_is_available : bool)
         (cuda_not_available : Exn) (to_device : option Exn)
         (tokenizer : string -> Tokens + Exn)
         (model : Tokens -> (list Float * list Z) + Exn)
         (is_Exception : Exn -> bool) (print : string -> Exn -> option Exn)
         (sequences : list string),
    let run := Esm.embedding_task cuda_is_available cuda_not_available
                 to_device tokenizer model is_Exception print sequences in
    let passes s := Esm.tokenizes tokenizer s
                    /\ Esm.handled tokenizer model is_Exception print s in
    (cuda_is_available = false -> run = (Esm.Raise cuda_not_available, []))
    /\ (cuda_is_available = true ->
        forall e, to_device = Some e ->
          run = (Esm.Raise e, [Esm.ModelMoved]))
    /\ (cuda_is_available = true -> to_device = None ->
        (forall s, In s sequences -> passes s) ->
        exists ev,
          run = (Esm.Return (flat_map (Esm.embedded tokenizer model) sequences),
                 ev)
          /\ (List.length (flat_map (Esm.embedded tokenizer model) sequences)
              <= List.length sequences)%nat)
    /\ (cuda_is_available = true -> to_device = None ->
        forall pre s post,
          sequences = pre ++ s :: post ->
          (forall x, In x pre -> passes x) ->
          (forall e, tokenizer s = inr e -> exists ev, run = (Esm.Raise e, ev))
          /\ (forall tokens e,
                tokenizer s = inl tokens -> model tokens = inr e ->
                (is_Exception e = false ->
                 exists ev, run = (Esm.Raise e, ev))
                /\ (forall e', is_Exception e = true ->
                      print s e = Some e' ->
                      exists ev, run = (Esm.Raise e', ev)))).
Proof.
  intros Tokens Exn cuda cuda_exn to_device tokenizer model is_Exception
         print sequences run passes.
  subst run passes. unfold Esm.embedding_task.
  split; [|split; [|split]].
  - intros ->. reflexivity.
  - intros -> e ->. reflexivity.
  - intros -> -> Hpass. cbn [negb].
    destruct (loop_returns tokenizer model is_Exception print sequences
                Hpass []) as [ev Hev].
    rewrite Hev. eexists. split; [reflexivity|].
    apply flat_map_length_le. apply embedded_at_most_one.
  - intros -> -> pre s post -> Hpre. cbn [negb].
    destruct (loop_after_prefix tokenizer model is_Exception print
                pre (s :: post) Hpre []) as (acc' & ev & Hev).
    rewrite Hev. clear Hev. cbn [Esm.loop]. split.
    + intros e ->. eexists. reflexivity.
    + intros tokens e -> ->. split.
      * intros ->. eexists. reflexivity.
      * intros e' -> ->. eexists. reflexivity.
Qed.

(** The theorem at three sequences, the second of which the model
    rejects. *)
Lemma embedding_task_skips_model_failures_witness :
  exists ev,
    Esm.embedding_task true "CUDA is not available"%string None
      char_tokenizer picky_model only_Exceptions quiet_print
      ["MK"; ""; "V"]%string
    = (Esm.Return [Esm.mkRecord "MK" [1 # 2] [1; 2];
                   Esm.mkRecord "V" [1 # 2] [1; 1]], ev).
Proof.
  destruct (embedding_task_skips_model_failures
              (list ascii) string true "CUDA is not available"%string None
              char_tokenizer picky_model only_Exceptions quiet_print
              ["MK"; ""; "V"]%string)
    as (_ & _ & H & _).
  destruct (H eq_refl eq_refl) as (ev & Hev & _).
  - intros s _. split; [eexists; reflexivity|].
    intros tokens e _ _. split; reflexivity.
  - exists ev. exact Hev.
Defined.

(** ** The pipeline entry point *)

Section InOrder.

Context {World Conf Exn : Type}.
Variable run_stage : Pipeline.Stage -> Conf -> World -> Pipeline.Outcome World Exn unit.
Variable conf : Conf.

(** The stages started are an initial segment of the stages given. *)
Lemma in_order_prefix stages w started o :
  Pipeline.in_order run_stage conf stages w started o ->
  exists rest, stages = started ++ rest.
Proof.
  induction 1 as [w | s rest w w' started o Hs _ [rest' IH] | s rest w e w' Hs].
  - exists []. reflexivity.
  - exists rest'. simpl. now rewrite IH.
  - exists rest. reflexivity.
Qed.

(** The whole returns only if every stage was started and returned. *)
Lemma in_order_returned stages w started a w' :
  Pipeline.in_order run_stage conf stages w started (Pipeline.Returned a w') ->
  started = stages
  /\ forall s, In s stages -> exists w1 w2,
       run_stage s conf w1 = Pipeline.Returned tt w2.
Proof.
  remember (Pipeline.Returned a w') as o eqn:Ho. intros H. revert Ho.
  induction H as [w | s rest w w1 started o Hs _ IH | s rest w e w1 Hs];
    intros Ho.
  - split; [reflexivity | intros s []].
  - destruct (IH Ho) as [-> Hall]. split; [reflexivity|].
    intros s' [<- | Hin]; [now exists w, w1 | now apply Hall].
  - discriminate.
Qed.

(** The whole raises exactly when some stage raised; that stage is the last
    one started, its predecessors returned and its successors never ran. *)
Lemma in_order_raised stages w started e w' :
  Pipeline.in_order run_stage conf stages w started (Pipeline.Raised e w') ->
  exists pre s rest w1,
    stages = pre ++ s :: rest
    /\ started = pre ++ [s]
    /\ run_stage s conf w1 = Pipeline.Raised e w'.
Proof.
  remember (Pipeline.Raised e w') as o eqn:Ho. intros H. revert Ho.
  induction H as [w | s rest w w1 started o Hs _ IH | s rest w e1 w1 Hs];
    intros Ho.
  - discriminate.
  - destruct (IH Ho) as (pre & s' & rest' & w2 & -> & -> & Hr).
    now exists (s :: pre), s', rest', w2.
  - injection Ho as -> ->. now exists [], s, rest, w.
Qed.

End InOrder.

Lemma run_all_in_order {World Conf Exn : Type}
  (run_stage : Pipeline.Stage -> Conf -> World -> Pipeline.Outcome World Exn unit)
  (conf : Conf) (stages : list Pipeline.Stage) :
  forall (w : World) (log : list Pipeline.Stage),
  exists started,
    snd (run_all run_stage conf stages w log) = log ++ started
    /\ Pipeline.in_order run_stage conf stages w started
         (fst (run_all run_stage conf stages w log)).
Proof.
  induction stages as [|s rest IH]; intros w log.
  - exists []. split; [symmetry; apply app_nil_r | constructor].
  - destruct rest as [|s' rest'].
    + cbn [run_all]. unfold Pipeline.call. cbn [fst snd].
      destruct (run_stage s conf w) as [[] w1|e w1] eqn:E.
      * exists [s]. split; [reflexivity|].
        eapply Pipeline.in_order_next; [exact E | constructor].
      * exists [s]. split; [reflexivity|].
        eapply Pipeline.in_order_abort; exact E.
    + change (run_all run_stage conf (s :: s' :: rest') w log)
        with (Pipeline.bind World Exn
                (Pipeline.call World Conf Exn run_stage s conf)
                (fun _ => run_all run_stage conf (s' :: rest')) w log).
      unfold Pipeline.bind, Pipeline.call.
      destruct (run_stage s conf w) as [[] w1|e w1] eqn:E.
      * destruct (IH w1 (log ++ [s])) as (started & Hlog & Hord).
        exists (s :: started). split.
        -- rewrite Hlog, <- app_assoc. reflexivity.
        -- eapply Pipeline.in_order_next; [exact E | exact Hord].
      * exists [s]. split; [reflexivity|].
        eapply Pipeline.in_order_abort; exact E.
Qed.

(** The outcome of [main] is that of running the eleven stages in order. *)
Lemma main_in_order {World Conf Exn : Type}
  (read_yaml_config : option string -> World -> Pipeline.Outcome World Exn Conf)
  (run_stage : Pipeline.Stage -> Conf -> World -> Pipeline.Outcome World Exn unit)
  (config_path : option string) (w : World) (conf : Conf) (w0 : World) :
  read_yaml_config config_path w = Pipeline.Returned conf w0 ->
  Pipeline.in_order run_stage conf Pipeline.pipeline w0
    (snd (Pipeline.main read_yaml_config run_stage config_path w []))
    (fst (Pipeline.main read_yaml_config run_stage config_path w [])).
Proof.
  intros Hc.
  assert (Hmain :
    Pipeline.main read_yaml_config run_stage config_path w []
    = run_all run_stage conf Pipeline.pipeline w0 []).
  { unfold Pipeline.main.
    unfold Pipeline.bind at 1. unfold Pipeline.load. rewrite Hc.
    reflexivity. }
  rewrite Hmain.
  destruct (run_all_in_order run_stage conf Pipeline.pipeline w0 [])
    as (started & Hlog & Hord).
  rewrite Hlog. exact Hord.
Qed.

(** A run in which the fourth call raises: four stages started, status 1;
    a run in which every call returns: all eleven started, status 0; a run
    without [--config], where reading the configuration raises: nothing
    started, status 1. *)
Example script_aborts_at_pdb_extraction :
  Pipeline.script reads_config failing_extraction (Some "config.yaml"%string) []
  = (1, [Pipeline.AccessionManager_fetch_accessions_from_api;
         Pipeline.AccessionManager_load_accessions_from_csv;
         Pipeline.UniProtExtractor_start; Pipeline.PDBExtractor_start]).
Proof. reflexivity. Qed.

Example script_runs_to_the_end :
  Pipeline.script reads_config always_returns (Some "config.yaml"%string) []
  = (0, Pipeline.pipeline).
Proof. reflexivity. Qed.

Example script_without_config :
  Pipeline.script reads_config always_returns None [] = (1, []).
Proof. reflexivity. Qed.

(** C8: the calls of [main] go through the declared phases in the declared
    order.  If the configuration cannot be read nothing is started;
    otherwise the stages are run in order, each one started only when its
    predecessor has returned, up to the first that raises: the stages
    started are an initial segment of the pipeline.  The script exits with
    status 0 exactly when [main] returned, and then every stage was started
    and returned; when a stage raises, its exception is the outcome, no
    later stage is started and the status is 1. *)
Theorem main_runs_stages_in_declared_order :
  forall (World Conf Exn : Type)
    (read_yaml_config : option string -> World
                        -> Pipeline.Outcome World Exn Conf)
    (run_stage : Pipeline.Stage -> Conf -> World
                 -> Pipeline.Outcome World Exn unit)
    (config_path : option string) (w : World),
    let o := fst (Pipeline.main read_yaml_config run_stage config_path w []) in
    let started :=
      snd (Pipeline.main read_yaml_config run_stage config_path w []) in
    squash (map Pipeline.phase_of Pipeline.pipeline) = Pipeline.declared_order
    /\ Pipeline.script read_yaml_config run_stage config_path w
       = (Pipeline.exit_status o, started)
    /\ match read_yaml_config config_path w with
       | Pipeline.Raised e w' => o = Pipeline.Raised e w' /\ started = []
       | Pipeline.Returned conf w0 =>
           Pipeline.in_order run_stage conf Pipeline.pipeline w0 started o
       end
    /\ (exists rest, Pipeline.pipeline = started ++ rest)
    /\ (Pipeline.exit_status o = 0 ->
        started = Pipeline.pipeline
        /\ forall s, In s Pipeline.pipeline -> exists conf w1 w2,
             run_stage s conf w1 = Pipeline.Returned tt w2)
    /\ (forall e w', o = Pipeline.Raised e w' ->
        Pipeline.exit_status o = 1
        /\ (started = []
            \/ exists pre s rest conf w1,
                 Pipeline.pipeline = pre ++ s :: rest
                 /\ started = pre ++ [s]
                 /\ run_stage s conf w1 = Pipeline.Raised e w')).
Proof.
  intros World Conf Exn read_yaml_config run_stage config_path w o started.
  assert (Hcase :
    match read_yaml_config config_path w with
    | Pipeline.Raised e w' => o = Pipeline.Raised e w' /\ started = []
    | Pipeline.Returned conf w0 =>
        Pipeline.in_order run_stage conf Pipeline.pipeline w0 started o
    end).
  { destruct (read_yaml_config config_path w) as [conf w0|e w'] eqn:Hc.
    - subst o started. now apply main_in_order.
    - subst o started.
      unfold Pipeline.main, Pipeline.bind, Pipeline.load. rewrite Hc.
      split; reflexivity. }
  split; [reflexivity|]. split.
  { subst o started. unfold Pipeline.script.
    now destruct (Pipeline.main read_yaml_config run_stage config_path w [])
      as [o' l']. }
  split; [exact Hcase|].
  destruct (read_yaml_config config_path w) as [conf w0|e0 w0'].
  - split; [eapply in_order_prefix; exact Hcase|]. split.
    + intros Hz. destruct o as [[] w'|e w']; [|discriminate].
      destruct (in_order_returned _ _ _ _ _ _ _ Hcase) as [Hs Hall].
      split; [exact Hs|]. intros s Hin. exists conf. now apply Hall.
    + intros e w' Ho. split; [now rewrite Ho|]. right. rewrite Ho in Hcase.
      destruct (in_order_raised _ _ _ _ _ _ _ Hcase)
        as (pre & s & rest & w1 & H1 & H2 & H3).
      now exists pre, s, rest, conf, w1.
  - destruct Hcase as [Ho Hs]. split; [exists Pipeline.pipeline; now rewrite Hs|].
    split.
    + rewrite Ho. discriminate.
    + intros e w' He. split; [now rewrite He | now left].
Qed.

(** ** The task queue: rows, updates and invariants *)

Lemma changes_refl P rows : changes P rows rows.
Proof. induction rows; constructor; auto. Qed.

Lemma changes_impl (P Q : SAQ.t -> SAQ.t -> Prop) rows rows' :
  (forall t t', P t t' -> Q t t') -> changes P rows rows' -> changes Q rows rows'.
Proof.
  intros HPQ H. induction H as [|t t' l l' [-> | Ht] _ IH]; constructor; auto.
Qed.

Lemma get_row_In task_id rows t :
  TQ.get_row task_id rows = Some t -> In t rows /\ SAQ.id t = task_id.
Proof.
  unfold TQ.get_row. intros H. apply find_some in H.
  destruct H as [Hin Heq]. apply Z.eqb_eq in Heq. now split.
Qed.

Lemma update_row_changes task_id f rows t :
  TQ.get_row task_id rows = Some t ->
  changes (fun a b => a = t /\ b = f t) rows (TQ.update_row task_id f rows).
Proof.
  induction rows as [|r rows IH]; simpl; [discriminate|].
  destruct (SAQ.id r =? task_id).
  - intros [= ->]. constructor; [now right | apply changes_refl].
  - intros H. constructor; [now left | now apply IH].
Qed.

Lemma get_row_update_same task_id f rows t :
  (forall r, SAQ.id (f r) = SAQ.id r) ->
  TQ.get_row task_id rows = Some t ->
  TQ.get_row task_id (TQ.update_row task_id f rows) = Some (f t).
Proof.
  intros Hid. induction rows as [|r rows IH]; simpl; [discriminate|].
  destruct (SAQ.id r =? task_id) eqn:E.
  - intros [= ->]. simpl. now rewrite Hid, E.
  - intros H. simpl. rewrite E. now apply IH.
Qed.

Lemma get_row_app task_id rows extra t :
  TQ.get_row task_id rows = Some t ->
  TQ.get_row task_id (rows ++ extra) = Some t.
Proof.
  unfold TQ.get_row. induction rows as [|r rows IH]; simpl; [discriminate|].
  destruct (SAQ.id r =? task_id); [trivial | exact IH].
Qed.

(** What [claim_rows] selects and what it leaves alone. *)
Lemma claim_rows_changes max now rows c rows' :
  TQ.claim_rows max now rows = Some (c, rows') ->
  (exists t, In t rows /\ TQ.claimable max t = true /\ c = TQ.on_claim now t)
  /\ changes (fun a b => TQ.claimable max a = true /\ b = TQ.on_claim now a)
             rows rows'.
Proof.
  revert c rows'. induction rows as [|r rows IH]; intros c rows'; simpl;
    [discriminate|].
  destruct (TQ.claimable max r) eqn:E.
  - intros [= <- <-]. split.
    + exists r. auto.
    + constructor; [now right | apply changes_refl].
  - destruct (TQ.claim_rows max now rows) as [[c0 rest']|]; [|discriminate].
    intros [= <- <-]. destruct (IH c0 rest' eq_refl) as [(t & Hin & Hc & Ht) Hch].
    split.
    + exists t. auto.
    + constructor; [now left | exact Hch].
Qed.

Lemma with_queue_queue db q :
  structural_alignment_queue (TQ.with_queue db q) = q.
Proof. reflexivity. Qed.

(** One step, case by case, with what it does to both tables. *)
Lemma step_cases max db db' :
  TQ.step max db db' ->
  db' = db
  \/ (exists now cluster_entry alignment_type,
        existsb (open_for max cluster_entry alignment_type)
                (structural_alignment_queue db) = false
        /\ structural_alignment_queue db'
           = structural_alignment_queue db
             ++ [SAQ.new_row
                   (TQ.next_id (map SAQ.id (structural_alignment_queue db)))
                   now cluster_entry alignment_type]
        /\ structural_alignment_results db' = structural_alignment_results db)
  \/ (exists now,
        structural_alignment_results db' = structural_alignment_results db
        /\ changes (fun a b => TQ.claimable max a = true
                               /\ b = TQ.on_claim now a)
                   (structural_alignment_queue db)
                   (structural_alignment_queue db'))
  \/ (exists now task_id t result,
        TQ.get_row task_id (structural_alignment_queue db) = Some t
        /\ SAQ.state t = Processing
        /\ structural_alignment_queue db'
           = TQ.update_row task_id (TQ.on_complete now)
                           (structural_alignment_queue db)
        /\ structural_alignment_results db'
           = structural_alignment_results db
             ++ [TQ.result_row
                   (TQ.next_id (map SAR.id (structural_alignment_results db)))
                   (SAQ.cluster_entry_id t) result])
  \/ (exists now,
        structural_alignment_results db' = structural_alignment_results db
        /\ changes (fun a b => SAQ.state a = Processing
                               /\ exists msg, b = TQ.on_fail max now msg a)
                   (structural_alignment_queue db)
                   (structural_alignment_queue db')).
Proof.
  intros Hstep. destruct Hstep.
  - unfold TQ.enqueue. fold (open_for max cluster_entry alignment_type).
    destruct (existsb _ _) eqn:E; [now left|].
    right. left. exists now, cluster_entry, alignment_type. auto.
  - unfold TQ.claim in H.
    destruct (TQ.claim_rows max now (structural_alignment_queue db))
      as [[c0 q']|] eqn:E; [|discriminate].
    injection H as <- <-. apply claim_rows_changes in E. destruct E as [_ E].
    right. right. left. exists now. auto.
  - unfold TQ.claim_task in H.
    destruct (TQ.get_row task_id (structural_alignment_queue db))
      as [t|] eqn:E; [|discriminate].
    destruct (TQ.claimable max t) eqn:Hc; [|discriminate].
    injection H as <- <-. right. right. left. exists now.
    split; [reflexivity|]. rewrite with_queue_queue.
    eapply changes_impl; [|apply update_row_changes; exact E].
    intros a b [-> ->]. auto.
  - destruct H as (t & Ht & Hs). right. right. right. left.
    exists now, task_id, t, result. unfold TQ.complete. rewrite Ht. auto.
  - destruct H as (t & Ht & Hs). right. right. right. right. exists now.
    unfold TQ.fail. split; [reflexivity|]. rewrite with_queue_queue.
    eapply changes_impl; [|apply update_row_changes; exact Ht].
    intros a b [-> ->]. eauto.
  - right. right. right. right. exists now. unfold TQ.recover_stale.
    split; [reflexivity|]. rewrite with_queue_queue.
    induction (structural_alignment_queue db) as [|r rows IH]; simpl;
      constructor; [|exact IH].
    destruct (TQ.stale now timeout r) eqn:E; [right | now left].
    unfold TQ.stale in E. apply andb_true_iff in E. destruct E as [E _].
    apply Z.eqb_eq in E. eauto.
Qed.

Lemma steps_preserve (max : Z) (I : Store -> Prop) :
  (forall db db', I db -> TQ.step max db db' -> I db') ->
  forall db db', TQ.steps max db db' -> I db -> I db'.
Proof.
  intros Hstep db db' H. induction H; intros HI; [assumption|].
  eapply Hstep; [apply IHsteps; assumption | eassumption].
Qed.






(** ** C2: what [fail] does *)

Lemma changes_map_id (P : SAQ.t -> SAQ.t -> Prop) rows rows' :
  (forall a b, P a b -> SAQ.id b = SAQ.id a) ->
  changes P rows rows' -> map SAQ.id rows' = map SAQ.id rows.
Proof.
  intros Hid H. induction H as [|t t' l l' Ht _ IH]; simpl; [reflexivity|].
  f_equal; [|exact IH]. destruct Ht as [-> | Ht]; [reflexivity | now apply Hid].
Qed.

(** A row that no change applies to is still the row of its id. *)
Lemma changes_get_row_stable (P : SAQ.t -> SAQ.t -> Prop) task_id rows rows' t :
  (forall a b, P a b -> SAQ.id b = SAQ.id a) ->
  (forall b, ~ P t b) ->
  changes P rows rows' ->
  TQ.get_row task_id rows = Some t -> TQ.get_row task_id rows' = Some t.
Proof.
  intros Hid Hnot H. induction H as [|a b l l' Hab _ IH]; simpl;
    [discriminate|].
  destruct (SAQ.id a =? task_id) eqn:E.
  - intros [= ->]. destruct Hab as [-> | Hab]; [|now apply Hnot in Hab].
    now rewrite E.
  - intros Hget. replace (SAQ.id b) with (SAQ.id a)
      by (destruct Hab as [-> | Hab]; [reflexivity | symmetry; now apply Hid]).
    rewrite E. now apply IH.
Qed.

Lemma update_row_ids task_id f rows :
  (forall r, SAQ.id (f r) = SAQ.id r) ->
  map SAQ.id (TQ.update_row task_id f rows) = map SAQ.id rows.
Proof.
  intros Hid. induction rows as [|r rows IH]; simpl; [reflexivity|].
  destruct (SAQ.id r =? task_id); simpl; [now rewrite Hid | now rewrite IH].
Qed.

Lemma step_ids max db db' :
  TQ.step max db db' ->
  exists new,
    map SAQ.id (structural_alignment_queue db')
    = map SAQ.id (structural_alignment_queue db) ++ new
    /\ (new = []
        \/ new = [TQ.next_id (map SAQ.id (structural_alignment_queue db))]).
Proof.
  intros Hstep.
  destruct (step_cases _ _ _ Hstep)
    as [-> | [(now & ce & aty & _ & Hq & _) | [(now & _ & Hch)
       | [(now & task_id & t & m & Ht & _ & Hq & _) | (now & _ & Hch)]]]].
  - exists []. rewrite app_nil_r. auto.
  - eexists. rewrite Hq, map_app. split; [reflexivity | now right].
  - exists []. rewrite app_nil_r. split; [|now left].
    eapply changes_map_id; [|exact Hch]. now intros a b [_ ->].
  - exists []. rewrite app_nil_r, Hq. split; [|now left].
    eapply changes_map_id; [|apply update_row_changes; exact Ht].
    now intros a b [-> ->].
  - exists []. rewrite app_nil_r. split; [|now left].
    eapply changes_map_id; [|exact Hch]. now intros a b [_ [msg ->]].
Qed.

Lemma step_NoDup_ids max db db' :
  TQ.step max db db' ->
  NoDup (map SAQ.id (structural_alignment_queue db)) ->
  NoDup (map SAQ.id (structural_alignment_queue db')).
Proof.
  intros Hstep Hnd. destruct (step_ids _ _ _ Hstep) as (new & -> & [-> | ->]).
  - now rewrite app_nil_r.
  - apply NoDup_app; [exact Hnd | repeat constructor; intros [] |].
    intros x Hx [<- | []]. now apply next_id_fresh in Hx.
Qed.

Lemma dead_not_claimable max t :
  SAQ.state t = Error -> max < SAQ.retry_count t ->
  TQ.claimable max t = false.
Proof.
  intros Hs Hr. unfold TQ.claimable, TQ.retry_eligible. rewrite Hs.
  replace (SAQ.retry_count t <? max) with false
    by (symmetry; apply Z.ltb_ge; lia).
  reflexivity.
Qed.

Lemma step_dead max task_id db db' :
  TQ.step max db db' -> dead max task_id db -> dead max task_id db'.
Proof.
  intros Hstep (t & Hget & Hs & Hr).
  exists t. split; [|now split].
  destruct (step_cases _ _ _ Hstep)
    as [-> | [(now & ce & aty & _ & Hq & _) | [(now & _ & Hch)
       | [(now & id' & t0 & m & Ht0 & Hs0 & Hq & _) | (now & _ & Hch)]]]].
  - exact Hget.
  - rewrite Hq. now apply get_row_app.
  - eapply changes_get_row_stable; [| |exact Hch|exact Hget].
    + now intros a b [_ ->].
    + intros b [Hc _]. rewrite (dead_not_claimable _ _ Hs Hr) in Hc.
      discriminate.
  - rewrite Hq.
    eapply changes_get_row_stable;
      [| |apply update_row_changes; exact Ht0|exact Hget].
    + now intros a b [-> ->].
    + intros b [Heq _]. rewrite Heq, Hs0 in Hs. discriminate.
  - eapply changes_get_row_stable; [| |exact Hch|exact Hget].
    + now intros a b [_ [msg ->]].
    + intros b [Hp _]. rewrite Hp in Hs. discriminate.
Qed.

Lemma NoDup_id_unique rows a b :
  NoDup (map SAQ.id rows) -> In a rows -> In b rows ->
  SAQ.id a = SAQ.id b -> a = b.
Proof.
  induction rows as [|r rows IH]; simpl; [intros _ []|].
  intros Hnd Ha Hb Heq. inversion Hnd as [|x l Hnotin Hnd']; subst.
  destruct Ha as [<- | Ha], Hb as [<- | Hb]; [reflexivity | | |now apply IH].
  - exfalso. apply Hnotin. rewrite Heq. now apply in_map.
  - exfalso. apply Hnotin. rewrite <- Heq. now apply in_map.
Qed.

(** A dead task is never handed out again. *)
Lemma dead_never_claimed max task_id db :
  NoDup (map SAQ.id (structural_alignment_queue db)) ->
  dead max task_id db ->
  (forall worker now c db', TQ.claim max worker now db = Some (c, db') ->
     SAQ.id c <> task_id)
  /\ (forall now, TQ.claim_task max now task_id db = None).
Proof.
  intros Hnd (t & Hget & Hs & Hr).
  pose proof (dead_not_claimable _ _ Hs Hr) as Hnc. split.
  - intros worker now c db' Hclaim Hid. unfold TQ.claim in Hclaim.
    destruct (TQ.claim_rows max now (structural_alignment_queue db))
      as [[c0 q']|] eqn:E; [|discriminate].
    injection Hclaim as <- <-.
    apply claim_rows_changes in E. destruct E as [(t0 & Hin & Hc & ->) _].
    apply get_row_In in Hget. destruct Hget as [Hint Hidt].
    assert (t0 = t).
    { apply (NoDup_id_unique _ _ _ Hnd Hin Hint). simpl in Hid. congruence. }
    subst t0. congruence.
  - intros now. unfold TQ.claim_task. now rewrite Hget, Hnc.
Qed.

(** C2: [fail] adds one to [retry_count] and records the message; the task
    goes back to Pending if the new count is at most [max_retries] and to
    Error otherwise.  From [retry_count = max_retries - 1] the first failure
    gives Pending and the next one Error; from then on, whatever the
    protocol does, no claim returns that task. *)
Theorem fail_retries_then_errors :
  forall (max now task_id : Z) (msg : string) (db : Store) (t : SAQ.t),
    TQ.get_row task_id (structural_alignment_queue db) = Some t ->
    exists t',
      TQ.get_row task_id
        (structural_alignment_queue (TQ.fail max now task_id msg db)) = Some t'
      /\ SAQ.retry_count t' = SAQ.retry_count t + 1
      /\ SAQ.error_message t' = Some msg
      /\ (SAQ.retry_count t' <= max -> SAQ.state t' = Pending)
      /\ (max < SAQ.retry_count t' ->
          SAQ.state t' = Error /\ TQ.terminal max t' = true)
      /\ (SAQ.retry_count t = max - 1 ->
          SAQ.state t' = Pending
          /\ forall now2 msg2,
               let db2 :=
                 TQ.fail max now2 task_id msg2 (TQ.fail max now task_id msg db)
               in
               (exists t'',
                  TQ.get_row task_id (structural_alignment_queue db2)
                  = Some t''
                  /\ SAQ.state t'' = Error
                  /\ SAQ.retry_count t'' = max + 1
                  /\ SAQ.error_message t'' = Some msg2)
               /\ (NoDup (map SAQ.id (structural_alignment_queue db)) ->
                   forall db3, TQ.steps max db2 db3 ->
                     (forall worker now3 c db4,
                        TQ.claim max worker now3 db3 = Some (c, db4) ->
                        SAQ.id c <> task_id)
                     /\ (forall now3,
                           TQ.claim_task max now3 task_id db3 = None))).
Proof.
  intros max now task_id msg db t Hget.
  assert (Hidf : forall n m r, SAQ.id (TQ.on_fail max n m r) = SAQ.id r)
    by reflexivity.
  pose proof (get_row_update_same task_id (TQ.on_fail max now msg) _ _
                (Hidf now msg) Hget) as Hget1.
  exists (TQ.on_fail max now msg t). unfold TQ.fail at 1.
  rewrite with_queue_queue. split; [exact Hget1|].
  split; [reflexivity|]. split; [reflexivity|].
  assert (Hle : SAQ.retry_count t + 1 <= max ->
                SAQ.state (TQ.on_fail max now msg t) = Pending).
  { intros H. simpl. apply Z.leb_le in H. now rewrite H. }
  assert (Hgt : forall n m r, max < SAQ.retry_count r + 1 ->
                SAQ.state (TQ.on_fail max n m r) = Error).
  { intros n m r H. simpl. apply Z.leb_gt in H. now rewrite H. }
  split; [exact Hle|]. split.
  { intros H. simpl in H. split; [now apply Hgt|].
    unfold TQ.terminal. rewrite (Hgt now msg t H). simpl.
    apply negb_true_iff, Z.ltb_ge. lia. }
  intros Hrc. split; [apply Hle; lia|].
  intros now2 msg2.
  set (db2 := TQ.fail max now2 task_id msg2 (TQ.fail max now task_id msg db)).
  set (t1 := TQ.on_fail max now msg t) in *.
  assert (Hget2 :
    TQ.get_row task_id (structural_alignment_queue db2)
    = Some (TQ.on_fail max now2 msg2 t1)).
  { subst db2. unfold TQ.fail. rewrite !with_queue_queue.
    apply get_row_update_same; [apply Hidf | exact Hget1]. }
  assert (Hrc1 : SAQ.retry_count t1 = max) by (subst t1; simpl; lia).
  assert (Hdead : dead max task_id db2).
  { exists (TQ.on_fail max now2 msg2 t1). split; [exact Hget2|]. split.
    - apply Hgt. lia.
    - simpl. lia. }
  split.
  - exists (TQ.on_fail max now2 msg2 t1). split; [exact Hget2|].
    split; [apply Hgt; lia|]. split; [simpl; lia | reflexivity].
  - intros Hnd db3 Hsteps. apply dead_never_claimed.
    + eapply (steps_preserve max
               (fun d => NoDup (map SAQ.id (structural_alignment_queue d))));
        [|exact Hsteps|].
      * intros d d' Hd Hs. eapply step_NoDup_ids; eassumption.
      * subst db2. unfold TQ.fail. rewrite !with_queue_queue.
        rewrite !update_row_ids by apply Hidf. exact Hnd.
    + eapply (steps_preserve max (dead max task_id));
        [|exact Hsteps|exact Hdead].
      intros d d' Hd Hs. eapply step_dead; eassumption.
Qed.

(** The theorem at the task of [run_c], one failure away from
    [max_retries]. *)
Lemma fail_retries_then_errors_witness :
  TQ.get_row 1 (structural_alignment_queue run_c) = Some run_c_task
  /\ SAQ.retry_count run_c_task = 2 - 1
  /\ exists t',
       TQ.get_row 1
         (structural_alignment_queue
            (TQ.fail 2 104 1 "alignment failed" run_c)) = Some t'
       /\ SAQ.retry_count t' = SAQ.retry_count run_c_task + 1
       /\ SAQ.state t' = Pending.
Proof.
  split; [reflexivity|]. split; [reflexivity|].
  destruct (fail_retries_then_errors 2 104 1 "alignment failed" run_c
              run_c_task eq_refl) as (t' & H1 & H2 & _ & _ & _ & H3).
  exists t'. split; [exact H1|]. split; [exact H2|]. apply H3. reflexivity.
Defined.

(** ** C3: results and Completed tasks *)






(** *** Lists of calls *)




(** *** What one call does to the two tables *)











(** *** Whatever is called: a Completed task has a row of its own *)



(** *** Under the protocol: exactly one row *)






(** *** The protocol and the reachable stores *)










(** ** C4: [enqueue] twice *)











(** ** C7: one representative per cluster *)

Lemma argbest_bound sim rest :
  forall cur_i cur i,
    (cur_i < i)%nat ->
    (CE.argbest sim cur_i cur i rest < i + List.length rest)%nat.
Proof.
  induction rest as [|m rest IH]; intros cur_i cur i Hlt; simpl; [lia|].
  destruct (CE.better sim m cur).
  - specialize (IH i m (S i)). lia.
  - specialize (IH cur_i cur (S i)). lia.
Qed.

Lemma rep_index_bound sim members :
  members <> [] -> (CE.rep_index sim members < List.length members)%nat.
Proof.
  destruct members as [|m rest]; [congruence|]. intros _. simpl.
  pose proof (argbest_bound sim rest O m 1%nat). lia.
Qed.

Lemma entries_from_length sim now cid rep_seq rep base members :
  forall i,
    List.length (CE.entries_from sim now cid rep_seq rep base i members)
    = List.length members.
Proof.
  induction members as [|m rest IH]; intros i; simpl;
    [reflexivity | now rewrite IH].
Qed.

Lemma entries_from_cluster sim now cid rep_seq rep base members :
  forall i e,
    In e (CE.entries_from sim now cid rep_seq rep base i members) ->
    ClusterEntry.cluster_id e = Some cid.
Proof.
  induction members as [|m rest IH]; intros i e; simpl; [intros []|].
  intros [<- | Hin]; [reflexivity | eapply IH; exact Hin].
Qed.

Lemma entries_from_head sim now cid rep_seq rep base i m rest :
  List.length
    (filter (CE.is_rep_of cid)
            (CE.entries_from sim now cid rep_seq rep base i (m :: rest)))
  = ((if Nat.eqb i rep then 1 else 0)
     + List.length
         (filter (CE.is_rep_of cid)
                 (CE.entries_from sim now cid rep_seq rep base (S i) rest)))%nat.
Proof.
  cbn [CE.entries_from filter]. unfold CE.is_rep_of at 1.
  cbn [ClusterEntry.cluster_id ClusterEntry.is_representative].
  rewrite Z.eqb_refl. destruct (Nat.eqb i rep); reflexivity.
Qed.

(** Among the entries written for one cluster, none is flagged once the
    position of the representative is passed, *)
Lemma entries_from_reps_out sim now cid rep_seq rep base members :
  forall i,
    (rep < i)%nat ->
    List.length
      (filter (CE.is_rep_of cid)
              (CE.entries_from sim now cid rep_seq rep base i members))
    = 0%nat.
Proof.
  induction members as [|m rest IH]; intros i Hlt; [reflexivity|].
  rewrite entries_from_head, IH by lia.
  replace (Nat.eqb i rep) with false by (symmetry; apply Nat.eqb_neq; lia).
  reflexivity.
Qed.

(** and exactly one is flagged when that position lies among them. *)
Lemma entries_from_reps_in sim now cid rep_seq rep base members :
  forall i,
    (i <= rep)%nat -> (rep < i + List.length members)%nat ->
    List.length
      (filter (CE.is_rep_of cid)
              (CE.entries_from sim now cid rep_seq rep base i members))
    = 1%nat.
Proof.
  induction members as [|m rest IH]; intros i Hle Hlt; simpl in Hlt; [lia|].
  rewrite entries_from_head.
  destruct (Nat.eq_dec i rep) as [-> | Hne].
  - rewrite Nat.eqb_refl, entries_from_reps_out by lia. reflexivity.
  - replace (Nat.eqb i rep) with false by (symmetry; now apply Nat.eqb_neq).
    rewrite IH by lia. reflexivity.
Qed.

Lemma fk_nullable_weaken v keys extra :
  fk_nullable v keys = true -> fk_nullable v (keys ++ extra) = true.
Proof.
  destruct v as [k|]; simpl; [|reflexivity].
  rewrite !memZ_In, in_app_iff. auto.
Qed.

(** Entries that reference other clusters do not count for [c]. *)
Lemma no_reps_elsewhere c entries :
  (forall e, In e entries -> ClusterEntry.cluster_id e <> Some c) ->
  filter (CE.is_rep_of c) entries = [].
Proof.
  intros H. induction entries as [|e rest IH]; simpl; [reflexivity|].
  assert (He : CE.is_rep_of c e = false).
  { unfold CE.is_rep_of. specialize (H e (or_introl eq_refl)).
    destruct (ClusterEntry.cluster_id e) as [c'|]; [|reflexivity].
    destruct (ClusterEntry.is_representative e) as [[|]|]; try reflexivity.
    apply Z.eqb_neq. congruence. }
  rewrite He. apply IH. intros e' Hin. apply H. now right.
Qed.

Lemma write_cluster_one_representative sim now sequences db lbl :
  CE.one_representative db ->
  (exists m, In m sequences /\ CE.label sim (CE.seq_id m) = lbl) ->
  CE.one_representative (CE.write_cluster sim now sequences db lbl).
Proof.
  intros [Hfk Hone] (m0 & Hm0 & Hl0).
  unfold CE.write_cluster.
  set (members := filter (fun m => CE.label sim (CE.seq_id m) =? lbl) sequences).
  set (cid := TQ.next_id (cluster_ids db)).
  set (rep := CE.rep_index sim members).
  set (new := CE.entries_from sim now cid _ rep _ O members).
  assert (Hmem : members <> []).
  { intros Hnil. assert (Hin : In m0 members).
    { apply filter_In. split; [assumption | now apply Z.eqb_eq]. }
    rewrite Hnil in Hin. destruct Hin. }
  assert (Hnew : forall e, In e new -> ClusterEntry.cluster_id e = Some cid)
    by (intros e He; eapply entries_from_cluster; exact He).
  assert (Hfresh : ~ In cid (cluster_ids db)) by apply next_id_fresh.
  unfold CE.entries_reference_clusters in Hfk. rewrite forallb_forall in Hfk.
  split.
  - unfold CE.entries_reference_clusters, cluster_ids.
    cbn [cluster_entries clusters CE.with_clusters].
    rewrite forallb_forall, map_app. intros e He.
    apply in_app_or in He. destruct He as [He | He].
    + apply fk_nullable_weaken. now apply Hfk.
    + rewrite (Hnew e He). simpl. apply memZ_In, in_or_app. right. now left.
  - intros c Hc. unfold CE.rep_count, cluster_ids in *.
    cbn [cluster_entries clusters CE.with_clusters] in *.
    rewrite filter_app, length_app. rewrite map_app in Hc.
    apply in_app_or in Hc. destruct Hc as [Hc | [<- | []]].
    + rewrite (Hone c Hc).
      rewrite (no_reps_elsewhere c new); [reflexivity|].
      intros e He. rewrite (Hnew e He). intros [= ->]. now apply Hfresh.
    + cbn [Cluster.id].
      rewrite (no_reps_elsewhere cid (cluster_entries db)).
      * subst new. rewrite entries_from_reps_in; [reflexivity | lia |].
        apply (rep_index_bound sim members Hmem).
      * intros e He Heq. specialize (Hfk e He). rewrite Heq in Hfk.
        simpl in Hfk. apply memZ_In in Hfk. now apply Hfresh.
Qed.

Lemma dedup_In x l : In x (CE.dedup l) -> In x l.
Proof.
  induction l as [|y l IH]; simpl; [trivial|].
  intros [-> | H]; [now left|]. right. apply IH.
  apply filter_In in H. apply H.
Qed.

Lemma fold_write_cluster_one_representative sim now sequences labels :
  (forall l, In l labels ->
     exists m, In m sequences /\ CE.label sim (CE.seq_id m) = l) ->
  forall db,
    CE.one_representative db ->
    CE.one_representative
      (fold_left (CE.write_cluster sim now sequences) labels db).
Proof.
  induction labels as [|l labels IH]; intros Hl db Hinv; simpl;
    [assumption|].
  apply IH; [intros l' Hin; apply Hl; now right|].
  apply write_cluster_one_representative; [assumption|].
  apply Hl. now left.
Qed.

Lemma filter_all_equal l0 l :
  (forall x, In x l -> x = l0) -> filter (fun y => negb (y =? l0)) l = [].
Proof.
  intros H. induction l as [|x l IH]; simpl; [reflexivity|].
  rewrite (H x (or_introl eq_refl)), Z.eqb_refl. simpl.
  apply IH. intros y Hy. apply H. now right.
Qed.

Lemma dedup_single l0 l :
  l <> [] -> (forall x, In x l -> x = l0) -> CE.dedup l = [l0].
Proof.
  destruct l as [|x l]; [congruence|]. intros _ H. simpl.
  rewrite (H x (or_introl eq_refl)). f_equal.
  apply filter_all_equal. intros y Hy. apply dedup_In in Hy.
  apply H. now right.
Qed.

Lemma filter_all_true {A} (g : A -> bool) l :
  (forall x, In x l -> g x = true) -> filter g l = l.
Proof.
  intros H. induction l as [|x l IH]; simpl; [reflexivity|].
  rewrite (H x (or_introl eq_refl)). f_equal.
  apply IH. intros y Hy. apply H. now right.
Qed.

Example five_sequences_one_cluster :
  List.length (clusters five_clustered) = 1%nat
  /\ List.length (cluster_entries five_clustered) = 5%nat
  /\ map (fun e => (ClusterEntry.sequence_id e,
                    ClusterEntry.is_representative e))
         (cluster_entries five_clustered)
     = [(10, Some false); (11, Some false); (12, Some true);
        (13, Some false); (14, Some false)].
Proof. repeat split. Qed.

Lemma empty_one_representative : CE.one_representative empty_store.
Proof. split; [reflexivity | intros c []]. Qed.

(** C7: a clustering run that succeeds keeps the invariant that every
    cluster has exactly one entry flagged [is_representative]; when the
    similarity computation puts all the sequences in one group, the run adds
    one cluster and one entry per sequence.  The invariant is the engine's:
    the declared constraints accept a cluster with two representatives. *)
Theorem clustering_leaves_one_representative :
  forall (method : list CE.Member -> option CE.Similarity) (now : Z)
         (sequences : list CE.Member) (db db' : Store),
    CE.one_representative db ->
    CE.cluster method now sequences db = inr db' ->
    (forall c, In c (cluster_ids db') -> CE.rep_count db' c = 1%nat)
    /\ CE.one_representative db'
    /\ (forall sim l0,
          method sequences = Some sim ->
          (forall m, In m sequences -> CE.label sim (CE.seq_id m) = l0) ->
          List.length (clusters db') = S (List.length (clusters db))
          /\ List.length (cluster_entries db')
             = (List.length (cluster_entries db) + List.length sequences)%nat)
    /\ (schema_ok two_representatives_store = true
        /\ CE.rep_count two_representatives_store 1 = 2%nat).
Proof.
  intros method now sequences db db' Hinv Hrun.
  unfold CE.cluster in Hrun.
  destruct sequences as [|m0 rest] eqn:Hseq; [discriminate|].
  rewrite <- Hseq in *.
  destruct (method sequences) as [sim|] eqn:Hm; [|discriminate].
  injection Hrun as <-.
  assert (Hinv' : CE.one_representative
    (fold_left (CE.write_cluster sim now sequences)
       (CE.dedup (map (fun m => CE.label sim (CE.seq_id m)) sequences)) db)).
  { apply fold_write_cluster_one_representative; [|assumption].
    intros l Hl. apply dedup_In, in_map_iff in Hl.
    destruct Hl as (m & Hlm & Hin). now exists m. }
  split; [apply Hinv'|]. split; [exact Hinv'|]. split.
  - intros sim' l0 [= <-] Hall.
    rewrite (dedup_single l0).
    + cbn [fold_left]. unfold CE.write_cluster.
      cbn [clusters cluster_entries CE.with_clusters].
      rewrite !length_app, entries_from_length. cbn [List.length].
      rewrite filter_all_true; [lia|].
      intros m Hin. apply Z.eqb_eq. now apply Hall.
    + rewrite Hseq. discriminate.
    + intros x Hx. apply in_map_iff in Hx. destruct Hx as (m & <- & Hin).
      now apply Hall.
  - split; vm_compute; reflexivity.
Qed.

(** The theorem at the run on five sequences. *)
Lemma clustering_leaves_one_representative_witness :
  CE.one_representative empty_store
  /\ CE.cluster (fun _ => Some central_12) 50 five_sequences empty_store
     = inr five_clustered
  /\ CE.rep_count five_clustered 1 = 1%nat.
Proof.
  split; [apply empty_one_representative|]. split; [reflexivity|].
  destruct (clustering_leaves_one_representative
              (fun _ => Some central_12) 50 five_sequences empty_store
              five_clustered empty_one_representative eq_refl) as [Hrep _].
  apply Hrep. left. reflexivity.
Defined.


(** * Further properties of the sources *)

(** ** [embedding_task]: batches, aborted runs, and what is reported *)

(** X1: two batches that both return can be run as one: the run on the
    concatenated input returns the records of the first batch followed by
    those of the second.  To the outside it does what the two runs do one
    after the other, except that the model is moved to the device once, not
    twice. *)
Theorem embedding_task_batches :
  forall (Tokens Exn : Type) (cuda_is_available : bool)
         (cuda_not_available : Exn) (to_device : option Exn)
         (tokenizer : string -> Tokens + Exn)
         (model : Tokens -> (list Float * list Z) + Exn)
         (is_Exception : Exn -> bool) (print : string -> Exn -> option Exn)
         (l1 l2 : list string) (r1 r2 : list Esm.EmbeddingRecord)
         (ev1 ev2 : list Esm.Event),
    let run := Esm.embedding_task cuda_is_available cuda_not_available
                 to_device tokenizer model is_Exception print in
    run l1 = (Esm.Return r1, ev1) ->
    run l2 = (Esm.Return r2, ev2) ->
    run (l1 ++ l2) = (Esm.Return (r1 ++ r2), ev1 ++ tl ev2)
    /\ hd_error ev1 = Some Esm.ModelMoved
    /\ ev2 = Esm.ModelMoved :: tl ev2
    /\ ~ In Esm.ModelMoved (tl ev1 ++ tl ev2).
Proof.
  intros Tokens Exn cuda cuda_exn to_device tokenizer model is_Exception
         print l1 l2 r1 r2 ev1 ev2 run.
  subst run. unfold Esm.embedding_task.
  destruct cuda; cbn [negb]; [|discriminate].
  destruct to_device as [e|]; [discriminate|].
  rewrite loop_app.
  destruct (Esm.loop tokenizer model is_Exception print l1 [])
    as [res1 lev1] eqn:H1.
  destruct (Esm.loop tokenizer model is_Exception print l2 [])
    as [res2 lev2] eqn:H2.
  intros [= -> <-] [= -> <-].
  rewrite loop_acc, H2. cbn [fst snd tl hd_error app].
  repeat split.
  intros Hin. apply in_app_or in Hin.
  apply loop_return_inv in H1. apply loop_return_inv in H2.
  destruct H1 as (_ & -> & _). destruct H2 as (_ & -> & _).
  destruct Hin as [Hin | Hin]; apply in_flat_map in Hin;
    destruct Hin as (s & _ & Hin); unfold events_of in Hin;
    destruct (tokenizer s) as [tokens|];
    try destruct (model tokens) as [[? ?]|];
    cbn [In] in Hin; intuition discriminate.
Qed.

(** The theorem at the batches ["MK"; ""] and ["V"]. *)
Lemma embedding_task_batches_witness :
  Esm.embedding_task true "CUDA is not available"%string None
    char_tokenizer picky_model only_Exceptions quiet_print
    (["MK"%string; ""%string] ++ ["V"%string])
  = (Esm.Return ([Esm.mkRecord "MK" [1 # 2] [1; 2]]
                 ++ [Esm.mkRecord "V" [1 # 2] [1; 1]]),
     [Esm.ModelMoved; Esm.Tokenized "MK"; Esm.ModelCalled "MK";
      Esm.Tokenized ""; Esm.ModelCalled ""; Esm.Printed ""]
     ++ tl [Esm.ModelMoved; Esm.Tokenized "V"; Esm.ModelCalled "V"]).
Proof.
  apply (embedding_task_batches (list ascii) string true
           "CUDA is not available"%string None char_tokenizer picky_model
           only_Exceptions quiet_print
           ["MK"; ""]%string ["V"]%string);
    reflexivity.
Defined.

(** X2: a run that raises is not changed by what follows in the input: the
    sequences after the point of failure are neither tokenized nor given to
    the model, and the same exception comes out after the same calls. *)
Theorem embedding_task_raise_ignores_rest :
  forall (Tokens Exn : Type) (cuda_is_available : bool)
         (cuda_not_available : Exn) (to_device : option Exn)
         (tokenizer : string -> Tokens + Exn)
         (model : Tokens -> (list Float * list Z) + Exn)
         (is_Exception : Exn -> bool) (print : string -> Exn -> option Exn)
         (l1 l2 : list string) (e : Exn) (ev : list Esm.Event),
    Esm.embedding_task cuda_is_available cuda_not_available to_device
                       tokenizer model is_Exception print l1
    = (Esm.Raise e, ev) ->
    Esm.embedding_task cuda_is_available cuda_not_available to_device
                       tokenizer model is_Exception print (l1 ++ l2)
    = (Esm.Raise e, ev).
Proof.
  intros Tokens Exn cuda cuda_exn to_device tokenizer model is_Exception
         print l1 l2 e ev.
  unfold Esm.embedding_task. destruct cuda; cbn [negb]; [|trivial].
  destruct to_device as [e0|]; [trivial|].
  rewrite loop_app.
  destruct (Esm.loop tokenizer model is_Exception print l1 [])
    as [[r1|e1] ev1]; [discriminate|trivial].
Qed.

(** The theorem at a run stopped by the tokenizer. *)
Lemma embedding_task_raise_ignores_rest_witness :
  Esm.embedding_task true "CUDA is not available"%string None
    refusing_tokenizer idle_model only_Exceptions quiet_print
    (["MKV"%string] ++ ["AAA"%string; "CCC"%string])
  = (Esm.Raise "ValueError"%string, [Esm.ModelMoved; Esm.Tokenized "MKV"]).
Proof.
  apply (embedding_task_raise_ignores_rest unit string true
           "CUDA is not available"%string None refusing_tokenizer idle_model
           only_Exceptions quiet_print
           ["MKV"]%string ["AAA"; "CCC"]%string).
  reflexivity.
Defined.

Lemma filter_split_length {A} (f : A -> bool) (l : list A) :
  (List.length (filter f l) + List.length (filter (fun x => negb (f x)) l)
   = List.length l)%nat.
Proof.
  induction l as [|x l IH]; simpl; [reflexivity|].
  destruct (f x); simpl; lia.
Qed.

(** X3: when the function returns, the model was moved to the device once,
    and then every input sequence was tokenized and given to the model
    once, in input order; the sequences it printed are exactly those the
    model failed on, so records and printed failures add up to the number
    of input sequences. *)
Theorem embedding_task_reports_every_skip :
  forall (Tokens Exn : Type) (cuda_is_available : bool)
         (cuda_not_available : Exn) (to_device : option Exn)
         (tokenizer : string -> Tokens + Exn)
         (model : Tokens -> (list Float * list Z) + Exn)
         (is_Exception : Exn -> bool) (print : string -> Exn -> option Exn)
         (sequences : list string) (recs : list Esm.EmbeddingRecord)
         (ev : list Esm.Event),
    Esm.embedding_task cuda_is_available cuda_not_available to_device
                       tokenizer model is_Exception print sequences
    = (Esm.Return recs, ev) ->
    ev = Esm.ModelMoved :: flat_map (events_of tokenizer model) sequences
    /\ printed ev
       = filter (fun s => negb (embeds tokenizer model s)) sequences
    /\ (List.length recs + List.length (printed ev)
        = List.length sequences)%nat.
Proof.
  intros Tokens Exn cuda cuda_exn to_device tokenizer model is_Exception
         print sequences recs ev.
  unfold Esm.embedding_task. destruct cuda; cbn [negb]; [|discriminate].
  destruct to_device as [e0|]; [discriminate|].
  destruct (Esm.loop tokenizer model is_Exception print sequences [])
    as [res lev] eqn:H.
  intros [= -> <-].
  apply loop_return_inv in H. destruct H as (-> & -> & Htok).
  cbn [app].
  assert (Hp : forall l, (forall s, In s l -> Esm.tokenizes tokenizer s) ->
    printed (flat_map (events_of tokenizer model) l)
    = filter (fun s => negb (embeds tokenizer model s)) l).
  { induction l as [|s l IH]; intros Hl; [reflexivity|].
    cbn [flat_map filter]. unfold printed in *. rewrite flat_map_app.
    rewrite IH by (intros x Hx; apply Hl; now right).
    destruct (Hl s (or_introl eq_refl)) as [tokens Ht].
    unfold events_of, embeds. rewrite Ht.
    destruct (model tokens) as [[? ?]|]; reflexivity. }
  assert (Hr : forall l,
    List.length (flat_map (Esm.embedded tokenizer model) l)
    = List.length (filter (embeds tokenizer model) l)).
  { induction l as [|s l IH]; [reflexivity|].
    cbn [flat_map filter]. rewrite length_app, IH.
    unfold Esm.embedded, embeds. destruct (tokenizer s) as [tokens|];
      [|reflexivity].
    destruct (model tokens) as [[? ?]|]; reflexivity. }
  assert (Hm : forall l, printed (Esm.ModelMoved :: l) = printed l)
    by reflexivity.
  split; [reflexivity|]. rewrite Hm. split; [now apply Hp|].
  rewrite Hp by assumption. rewrite Hr. apply filter_split_length.
Qed.

(** The theorem at three sequences, the second of which is skipped. *)
Lemma embedding_task_reports_every_skip_witness :
  printed
    (snd (Esm.embedding_task true "CUDA is not available"%string None
            char_tokenizer picky_model only_Exceptions quiet_print
            ["MK"; ""; "V"]%string))
  = filter (fun s => negb (embeds char_tokenizer picky_model s))
           ["MK"; ""; "V"]%string.
Proof.
  eapply (embedding_task_reports_every_skip (list ascii) string true
            "CUDA is not available"%string None char_tokenizer picky_model
            only_Exceptions quiet_print ["MK"; ""; "V"]%string).
  reflexivity.
Defined.

(** X4: the records returned are those of the input sequences the model
    embedded, in input order and as often as the sequence occurs; each
    record carries its sequence together with the embedding and the shape
    the model gave for the tokens of that very sequence. *)
Theorem embedding_task_records_come_from_the_model :
  forall (Tokens Exn : Type) (cuda_is_available : bool)
         (cuda_not_available : Exn) (to_device : option Exn)
         (tokenizer : string -> Tokens + Exn)
         (model : Tokens -> (list Float * list Z) + Exn)
         (is_Exception : Exn -> bool) (print : string -> Exn -> option Exn)
         (sequences : list string) (recs : list Esm.EmbeddingRecord)
         (ev : list Esm.Event),
    Esm.embedding_task cuda_is_available cuda_not_available to_device
                       tokenizer model is_Exception print sequences
    = (Esm.Return recs, ev) ->
    map Esm.rec_sequence recs = filter (embeds tokenizer model) sequences
    /\ forall r, In r recs ->
         In (Esm.rec_sequence r) sequences
         /\ exists tokens,
              tokenizer (Esm.rec_sequence r) = inl tokens
              /\ model tokens = inl (Esm.rec_embedding r, Esm.rec_shape r).
Proof.
  intros Tokens Exn cuda cuda_exn to_device tokenizer model is_Exception
         print sequences recs ev.
  unfold Esm.embedding_task. destruct cuda; cbn [negb]; [|discriminate].
  destruct to_device as [e0|]; [discriminate|].
  destruct (Esm.loop tokenizer model is_Exception print sequences [])
    as [res lev] eqn:H.
  intros [= -> <-].
  apply loop_return_inv in H. destruct H as (-> & _ & _).
  cbn [app]. split.
  - induction sequences as [|s l IH]; [reflexivity|].
    cbn [flat_map filter]. rewrite map_app, IH.
    unfold Esm.embedded, embeds. destruct (tokenizer s) as [tokens|];
      [|reflexivity].
    destruct (model tokens) as [[? ?]|]; reflexivity.
  - intros r Hr. apply in_flat_map in Hr. destruct Hr as (s & Hs & Hr).
    unfold Esm.embedded in Hr.
    destruct (tokenizer s) as [tokens|] eqn:Ht; [|destruct Hr].
    destruct (model tokens) as [[emb shp]|] eqn:Hm; [|destruct Hr].
    destruct Hr as [<- | []]. cbn [Esm.rec_sequence Esm.rec_embedding
      Esm.rec_shape]. split; [assumption|]. now exists tokens.
Qed.

(** The theorem at an input in which a sequence occurs twice. *)
Lemma embedding_task_records_come_from_the_model_witness :
  map Esm.rec_sequence
      [Esm.mkRecord "V" [1 # 2] [1; 1]; Esm.mkRecord "V" [1 # 2] [1; 1]]
  = filter (embeds char_tokenizer picky_model) ["V"; ""; "V"]%string.
Proof.
  eapply (embedding_task_records_come_from_the_model (list ascii) string true
            "CUDA is not available"%string None char_tokenizer picky_model
            only_Exceptions quiet_print ["V"; ""; "V"]%string).
  reflexivity.
Defined.

(** ** The FASTA example: which references are selected *)

Lemma Qltb_lt (x y : Q) : ExampleFasta.Qltb x y = true <-> (x < y)%Q.
Proof.
  unfold ExampleFasta.Qltb. rewrite negb_true_iff. split.
  - intros H. apply Qnot_le_lt. intros Hle.
    apply Qle_bool_iff in Hle. congruence.
  - intros H. apply not_true_is_false. intros Hle.
    apply Qle_bool_iff in Hle. now apply Qlt_not_le in H.
Qed.

Lemma resolution_filter_spec (threshold : Float) (r : PDBReference.t) :
  ExampleFasta.resolution_filter threshold r = true
  <-> exists x, PDBReference.resolution r = Some x /\ (x < threshold)%Q.
Proof.
  unfold ExampleFasta.resolution_filter.
  destruct (PDBReference.resolution r) as [x|].
  - rewrite Qltb_lt. split; [intros H; now exists x | now intros (y & [= <-] & H)].
  - split; [discriminate | now intros (y & [=] & _)].
Qed.


Lemma filter_length_bound {A} (f : A -> bool) (l : list A) :
  (List.length (filter f l) <= List.length l)%nat.
Proof.
  induction l as [|x l IH]; simpl; [lia|]. destruct (f x); simpl; lia.
Qed.


Lemma filter_filter_impl {A} (f g : A -> bool) (l : list A) :
  (forall x, f x = true -> g x = true) ->
  filter f (filter g l) = filter f l.
Proof.
  intros H. induction l as [|x l IH]; simpl; [reflexivity|].
  destruct (g x) eqn:Eg; simpl.
  - destruct (f x); now rewrite IH.
  - destruct (f x) eqn:Ef; [|exact IH]. apply H in Ef. congruence.
Qed.

(** X6: lowering the threshold only removes references: the ids selected
    under a threshold are those selected under any larger threshold,
    filtered again, so they keep their order and none is added. *)
Theorem fasta_selection_shrinks_with_threshold :
  forall (t1 t2 : Float) (data_dir output_dir : string) (max_workers : Z)
         (merge_name : string) (refs : list PDBReference.t),
    (t1 <= t2)%Q ->
    let c1 := ExampleFasta.mkConfig (Some t1) data_dir output_dir max_workers
                                    merge_name in
    let c2 := ExampleFasta.mkConfig (Some t2) data_dir output_dir max_workers
                                    merge_name in
    ExampleFasta.query_ids c1 refs
    = map PDBReference.pdb_id
        (filter (ExampleFasta.resolution_filter t1)
           (filter (ExampleFasta.resolution_filter t2) refs))
    /\ incl (ExampleFasta.query_ids c1 refs) (ExampleFasta.query_ids c2 refs)
    /\ (List.length (ExampleFasta.query_ids c1 refs)
        <= List.length (ExampleFasta.query_ids c2 refs))%nat.
Proof.
  intros t1 t2 data_dir output_dir max_workers merge_name refs Hle c1 c2.
  assert (Himp : forall r, ExampleFasta.resolution_filter t1 r = true ->
                           ExampleFasta.resolution_filter t2 r = true).
  { intros r Hr. apply resolution_filter_spec in Hr.
    destruct Hr as (x & Hx & Hlt). apply resolution_filter_spec.
    exists x. split; [assumption|]. eapply Qlt_le_trans; eassumption. }
  assert (Heq : ExampleFasta.query_ids c1 refs
    = map PDBReference.pdb_id
        (filter (ExampleFasta.resolution_filter t1)
           (filter (ExampleFasta.resolution_filter t2) refs))).
  { unfold ExampleFasta.query_ids. cbn [ExampleFasta.get
      ExampleFasta.resolution_threshold c1].
    now rewrite filter_filter_impl. }
  split; [exact Heq|]. split.
  - rewrite Heq. unfold ExampleFasta.query_ids.
    cbn [ExampleFasta.get ExampleFasta.resolution_threshold c2].
    intros id Hid. apply in_map_iff in Hid. destruct Hid as (r & <- & Hr).
    apply filter_In in Hr. apply in_map. apply Hr.
  - rewrite Heq. unfold ExampleFasta.query_ids.
    cbn [ExampleFasta.get ExampleFasta.resolution_threshold c2].
    rewrite !length_map. apply filter_length_bound.
Qed.

(** The theorem at the thresholds 2 and 2.5. *)
Lemma fasta_selection_shrinks_with_threshold_witness :
  (2 # 1 <= 25 # 10)%Q
  /\ incl (ExampleFasta.query_ids
             (ExampleFasta.mkConfig (Some (2 # 1)) "data" "out" 4 "merged")
             fasta_refs)
          (ExampleFasta.query_ids
             (ExampleFasta.mkConfig (Some (25 # 10)) "data" "out" 4 "merged")
             fasta_refs).
Proof.
  assert (H : (2 # 1 <= 25 # 10)%Q) by (unfold Qle; simpl; lia).
  split; [exact H|].
  destruct (fasta_selection_shrinks_with_threshold
              (2 # 1) (25 # 10) "data" "out" 4 "merged" fasta_refs H)
    as (_ & Hincl & _).
  exact Hincl.
Defined.

(** ** The FASTA example: the database URI and the configuration keys *)

Lemma append_cancel_prefix (p a b : string) :
  (p ++ a = p ++ b)%string -> a = b.
Proof.
  induction p as [|c p IH]; simpl; [trivial|]. intros [= H]. now apply IH.
Qed.

(** A separator that occurs in neither left part cuts in one way only. *)
Lemma split_at_separator (c : ascii) (a1 a2 r1 r2 : string) :
  occurs c a1 = false -> occurs c a2 = false ->
  (a1 ++ String c r1 = a2 ++ String c r2)%string ->
  a1 = a2 /\ r1 = r2.
Proof.
  revert a2. induction a1 as [|x a1 IH]; intros a2 H1 H2 Heq.
  - destruct a2 as [|y a2]; simpl in *.
    + injection Heq as ->. now split.
    + injection Heq as -> _. rewrite Ascii.eqb_refl in H2. discriminate.
  - destruct a2 as [|y a2]; simpl in *.
    + injection Heq as -> _. rewrite Ascii.eqb_refl in H1. discriminate.
    + injection Heq as -> Heq.
      apply orb_false_iff in H1, H2. destruct H1 as [_ H1], H2 as [_ H2].
      destruct (IH a2 H1 H2 Heq) as [-> ->]. now split.
Qed.

(** The fields are not escaped: a password that contains the separator
    gives the URI of another password and another host. *)
Example database_uri_ambiguous :
  database_uri "alice" "p@x" "db" "5432" "pdb"
  = database_uri "alice" "p" "x@db" "5432" "pdb".
Proof. reflexivity. Qed.

(** X7: the database URI determines the five settings it was built from as
    long as no field contains the separator that ends it (no colon in the
    user name or the host, no at-sign in the password, no slash in the
    port). *)
Theorem database_uri_injective :
  forall u p h po n u' p' h' po' n' : string,
    occurs ":" u = false -> occurs ":" u' = false ->
    occurs "@" p = false -> occurs "@" p' = false ->
    occurs ":" h = false -> occurs ":" h' = false ->
    occurs "/" po = false -> occurs "/" po' = false ->
    database_uri u p h po n = database_uri u' p' h' po' n' ->
    u = u' /\ p = p' /\ h = h' /\ po = po' /\ n = n'.
Proof.
  intros u p h po n u' p' h' po' n' Hu Hu' Hp Hp' Hh Hh' Hpo Hpo' Heq.
  unfold database_uri in Heq.
  apply append_cancel_prefix in Heq.
  apply (split_at_separator ":" u u') in Heq; [|assumption|assumption].
  destruct Heq as [-> Heq].
  apply (split_at_separator "@" p p') in Heq; [|assumption|assumption].
  destruct Heq as [-> Heq].
  apply (split_at_separator ":" h h') in Heq; [|assumption|assumption].
  destruct Heq as [-> Heq].
  apply (split_at_separator "/" po po') in Heq; [|assumption|assumption].
  destruct Heq as [-> ->]. repeat split.
Qed.

(** The theorem at two settings that differ in the database name only. *)
Lemma database_uri_injective_witness :
  database_uri "alice" "secret" "localhost" "5432" "pdb"
  = database_uri "alice" "secret" "localhost" "5432" "pdb"
  /\ ("pdb" = "pdb")%string.
Proof.
  split; [reflexivity|].
  apply (database_uri_injective "alice" "secret" "localhost" "5432" "pdb"
           "alice" "secret" "localhost" "5432" "pdb");
    reflexivity.
Defined.

Ltac fasta_case :=
  match goal with
  | H : context [match (match ?c with _ => _ end) with _ => _ end] |- _ =>
      destruct c eqn:?
  | H : context [match ?c with _ => _ end] |- _ => destruct c eqn:?
  end.

Ltac fasta_goal_case :=
  match goal with
  | |- context [match (match ?c with _ => _ end) with _ => _ end] =>
      destruct c eqn:?
  | |- context [match ?c with _ => _ end] => destruct c eqn:?
  end.

Ltac fasta_unfold :=
  unfold ExampleFastaScript.main, ExampleFastaScript.bind,
    ExampleFastaScript.call, ExampleFastaScript.getitem in *;
  cbn [app fst snd] in *.

Section FastaScript.

Context {World Value Exn Engine Sessionmaker Session Handler : Type}.
Variable KeyError : string -> Exn.
Variable str : Value -> string.
Variable number : Float -> Value.
Variable read_yaml_config :
  string -> World -> ExampleFastaScript.Outcome World Exn (string -> option Value).
Variable create_engine :
  string -> World -> ExampleFastaScript.Outcome World Exn Engine.
Variable create_all : Engine -> World -> ExampleFastaScript.Outcome World Exn unit.
Variable sessionmaker :
  Engine -> World -> ExampleFastaScript.Outcome World Exn Sessionmaker.
Variable new_session :
  Sessionmaker -> World -> ExampleFastaScript.Outcome World Exn Session.
Variable query_all :
  Session -> Value -> World
  -> ExampleFastaScript.Outcome World Exn (list PDBReference.t).
Variable FastaHandler :
  Session -> Value -> Value -> World
  -> ExampleFastaScript.Outcome World Exn Handler.
Variable download_fastas :
  Handler -> list string -> Value -> World
  -> ExampleFastaScript.Outcome World Exn unit.
Variable merge_fastas :
  Handler -> list string -> Value -> World
  -> ExampleFastaScript.Outcome World Exn unit.

Variables (w w0 : World) (config : string -> option Value).
Hypothesis Hread :
  read_yaml_config "./config.yaml" w = ExampleFastaScript.Returned config w0.

Local Abbreviation run :=
  (ExampleFastaScript.main KeyError str number read_yaml_config create_engine
     create_all sessionmaker new_session query_all FastaHandler
     download_fastas merge_fastas w []).

(** A missing database setting stops [main] before anything but the
    configuration reader has been called. *)
Lemma fasta_missing_database_key (key : string) :
  find (ExampleFastaScript.missing config)
       (firstn 5 ExampleFastaScript.required) = Some key ->
  run = (ExampleFastaScript.Raised (KeyError key) w0,
         [ExampleFastaScript.called_read_yaml_config "./config.yaml"]).
Proof.
  intros Hf. fasta_unfold. rewrite Hread.
  unfold ExampleFastaScript.required, ExampleFastaScript.missing in Hf.
  cbn [find firstn] in Hf.
  destruct (config "DB_USERNAME"%string); [|now inversion Hf].
  destruct (config "DB_PASSWORD"%string); [|now inversion Hf].
  destruct (config "DB_HOST"%string); [|now inversion Hf].
  destruct (config "DB_PORT"%string); [|now inversion Hf].
  destruct (config "DB_NAME"%string); [|now inversion Hf].
  discriminate Hf.
Qed.

(** [download_fastas] is called only after the eight keys before
    [merge_name] have been read. *)
Lemma fasta_download_needs_keys (ids : list string) (workers : Value) :
  In (ExampleFastaScript.called_download_fastas ids workers) (snd run) ->
  forall key, In key (firstn 8 ExampleFastaScript.required) ->
              config key <> None.
Proof.
  intros Hin key Hk. fasta_unfold. rewrite Hread in Hin.
  unfold ExampleFastaScript.required in Hk. cbn [firstn In] in Hk.
  repeat (fasta_case; cbn [fst snd app In] in Hin;
          try (intuition discriminate)).
  all: intuition (subst; congruence).
Qed.

(** [merge_fastas] is called only after all nine keys have been read. *)
Lemma fasta_merge_needs_keys (ids : list string) (name : Value) :
  In (ExampleFastaScript.called_merge_fastas ids name) (snd run) ->
  forall key, In key ExampleFastaScript.required -> config key <> None.
Proof.
  intros Hin key Hk. fasta_unfold. rewrite Hread in Hin.
  unfold ExampleFastaScript.required in Hk. cbn [In] in Hk.
  repeat (fasta_case; cbn [fst snd app In] in Hin;
          try (intuition discriminate)).
  all: intuition (subst; congruence).
Qed.

(** The threshold of the query is the value of [resolution_threshold], or
    2.5 without the key. *)
Lemma fasta_query_threshold (threshold : Value) :
  In (ExampleFastaScript.called_query_all threshold) (snd run) ->
  threshold = match config "resolution_threshold"%string with
              | Some v => v
              | None => number (25 # 10)
              end.
Proof.
  intros Hin. fasta_unfold. rewrite Hread in Hin.
  unfold ExampleFastaScript.get in Hin.
  set (t := match config "resolution_threshold"%string with
            | Some v => v
            | None => number (25 # 10)
            end) in *.
  clearbody t.
  repeat (fasta_case; cbn [fst snd app In] in Hin;
          try (intuition discriminate)).
  all: intuition congruence.
Qed.

Hypothesis Hcreate_engine :
  forall uri, ExampleFastaScript.returns (create_engine uri).
Hypothesis Hcreate_all :
  forall engine, ExampleFastaScript.returns (create_all engine).
Hypothesis Hsessionmaker :
  forall engine, ExampleFastaScript.returns (sessionmaker engine).
Hypothesis Hnew_session :
  forall factory, ExampleFastaScript.returns (new_session factory).
Hypothesis Hquery_all :
  forall session threshold,
    ExampleFastaScript.returns (query_all session threshold).
Hypothesis HFastaHandler :
  forall session data_dir output_dir,
    ExampleFastaScript.returns (FastaHandler session data_dir output_dir).
Hypothesis Hdownload_fastas :
  forall handler ids workers,
    ExampleFastaScript.returns (download_fastas handler ids workers).
Hypothesis Hmerge_fastas :
  forall handler ids name,
    ExampleFastaScript.returns (merge_fastas handler ids name).

Ltac fasta_pose :=
  repeat match goal with
         | E : create_engine ?a ?x = ExampleFastaScript.Raised _ _ |- _ =>
             destruct (Hcreate_engine a x) as (? & ? & ?); congruence
         | E : create_all ?a ?x = ExampleFastaScript.Raised _ _ |- _ =>
             destruct (Hcreate_all a x) as (? & ? & ?); congruence
         | E : sessionmaker ?a ?x = ExampleFastaScript.Raised _ _ |- _ =>
             destruct (Hsessionmaker a x) as (? & ? & ?); congruence
         | E : new_session ?a ?x = ExampleFastaScript.Raised _ _ |- _ =>
             destruct (Hnew_session a x) as (? & ? & ?); congruence
         | E : query_all ?a ?b ?x = ExampleFastaScript.Raised _ _ |- _ =>
             destruct (Hquery_all a b x) as (? & ? & ?); congruence
         | E : FastaHandler ?a ?b ?c ?x = ExampleFastaScript.Raised _ _ |- _ =>
             destruct (HFastaHandler a b c x) as (? & ? & ?); congruence
         | E : download_fastas ?a ?b ?c ?x = ExampleFastaScript.Raised _ _
           |- _ =>
             destruct (Hdownload_fastas a b c x) as (? & ? & ?); congruence
         | E : merge_fastas ?a ?b ?c ?x = ExampleFastaScript.Raised _ _
           |- _ =>
             destruct (Hmerge_fastas a b c x) as (? & ? & ?); congruence
         end.

(** With collaborators that return, [main] raises [KeyError] for the first
    required key the configuration lacks. *)
Lemma fasta_first_missing_key (key : string) :
  find (ExampleFastaScript.missing config) ExampleFastaScript.required
  = Some key ->
  exists w', fst run = ExampleFastaScript.Raised (KeyError key) w'.
Proof.
  intros Hf. fasta_unfold. rewrite Hread.
  unfold ExampleFastaScript.required, ExampleFastaScript.missing in Hf.
  cbn [find] in Hf.
  repeat (fasta_goal_case; cbn [fst snd app]; cbn in Hf;
          try solve [fasta_pose | discriminate Hf
                    | injection Hf as <-; eexists; reflexivity]).
Qed.

(** With collaborators that return and no required key missing, [main]
    returns. *)
Lemma fasta_no_missing_key :
  find (ExampleFastaScript.missing config) ExampleFastaScript.required = None ->
  exists w', fst run = ExampleFastaScript.Returned tt w'.
Proof.
  intros Hf. fasta_unfold. rewrite Hread.
  unfold ExampleFastaScript.required, ExampleFastaScript.missing in Hf.
  cbn [find] in Hf.
  repeat (fasta_goal_case; cbn [fst snd app]; cbn in Hf;
          try solve [fasta_pose | discriminate Hf]).
  match goal with
  | |- exists w', merge_fastas ?a ?b ?c ?x = _ =>
      destruct (Hmerge_fastas a b c x) as ([] & w' & ->)
  end.
  eexists. reflexivity.
Qed.

(** With collaborators that return and [merge_name] the first missing key,
    the last call made is [download_fastas]. *)
Lemma fasta_merge_name_missing :
  find (ExampleFastaScript.missing config) ExampleFastaScript.required
  = Some "merge_name"%string ->
  exists ids workers,
    last (snd run) ExampleFastaScript.called_create_all
    = ExampleFastaScript.called_download_fastas ids workers.
Proof.
  intros Hf. fasta_unfold. rewrite Hread.
  unfold ExampleFastaScript.required, ExampleFastaScript.missing in Hf.
  cbn [find] in Hf.
  repeat (fasta_goal_case; cbn [fst snd app]; cbn in Hf;
          try solve [fasta_pose | discriminate Hf
                    | eexists; eexists; reflexivity]).
Qed.

End FastaScript.

(** X8: [main] reads nine keys with [config[...]], in a fixed order, between
    the calls it makes.  Once the configuration has been read: if one of the
    five database settings is missing, [KeyError] is raised for the first
    of them and nothing else has been called; [download_fastas] is called
    only when the eight keys before [merge_name] are present and
    [merge_fastas] only when all nine are, whatever the calls in between do;
    the threshold given to the query is the value of
    [resolution_threshold], or 2.5 when the key is absent, so that key is
    never required.  When every call returns, [main] raises [KeyError] for
    the first required key that is missing and returns when none is; when
    that key is [merge_name], the error comes right after the call of
    [download_fastas]. *)
Theorem fasta_main_key_errors :
  forall (World Value Exn Engine Sessionmaker Session Handler : Type)
         (KeyError : string -> Exn) (str : Value -> string)
         (number : Float -> Value)
         (read_yaml_config :
            string -> World
            -> ExampleFastaScript.Outcome World Exn (string -> option Value))
         (create_engine :
            string -> World -> ExampleFastaScript.Outcome World Exn Engine)
         (create_all :
            Engine -> World -> ExampleFastaScript.Outcome World Exn unit)
         (sessionmaker :
            Engine -> World
            -> ExampleFastaScript.Outcome World Exn Sessionmaker)
         (new_session :
            Sessionmaker -> World
            -> ExampleFastaScript.Outcome World Exn Session)
         (query_all :
            Session -> Value -> World
            -> ExampleFastaScript.Outcome World Exn (list PDBReference.t))
         (FastaHandler :
            Session -> Value -> Value -> World
            -> ExampleFastaScript.Outcome World Exn Handler)
         (download_fastas merge_fastas :
            Handler -> list string -> Value -> World
            -> ExampleFastaScript.Outcome World Exn unit)
         (w w0 : World) (config : string -> option Value),
    let run :=
      ExampleFastaScript.main KeyError str number read_yaml_config
        create_engine create_all sessionmaker new_session query_all
        FastaHandler download_fastas merge_fastas w [] in
    let first_missing :=
      find (ExampleFastaScript.missing config) ExampleFastaScript.required in
    read_yaml_config "./config.yaml"%string w
    = ExampleFastaScript.Returned config w0 ->
    (forall key,
       find (ExampleFastaScript.missing config)
            (firstn 5 ExampleFastaScript.required) = Some key ->
       run = (ExampleFastaScript.Raised (KeyError key) w0,
              [ExampleFastaScript.called_read_yaml_config "./config.yaml"%string]))
    /\ (forall ids workers,
          In (ExampleFastaScript.called_download_fastas ids workers)
             (snd run) ->
          forall key, In key (firstn 8 ExampleFastaScript.required) ->
                      config key <> None)
    /\ (forall ids name,
          In (ExampleFastaScript.called_merge_fastas ids name) (snd run) ->
          forall key, In key ExampleFastaScript.required ->
                      config key <> None)
    /\ (forall threshold,
          In (ExampleFastaScript.called_query_all threshold) (snd run) ->
          threshold = match config "resolution_threshold"%string with
                      | Some v => v
                      | None => number (25 # 10)
                      end)
    /\ ((forall uri, ExampleFastaScript.returns (create_engine uri)) ->
        (forall engine, ExampleFastaScript.returns (create_all engine)) ->
        (forall engine, ExampleFastaScript.returns (sessionmaker engine)) ->
        (forall factory, ExampleFastaScript.returns (new_session factory)) ->
        (forall session threshold,
           ExampleFastaScript.returns (query_all session threshold)) ->
        (forall session data_dir output_dir,
           ExampleFastaScript.returns
             (FastaHandler session data_dir output_dir)) ->
        (forall handler ids workers,
           ExampleFastaScript.returns (download_fastas handler ids workers)) ->
        (forall handler ids name,
           ExampleFastaScript.returns (merge_fastas handler ids name)) ->
        (forall key, first_missing = Some key ->
           exists w', fst run = ExampleFastaScript.Raised (KeyError key) w')
        /\ (first_missing = None ->
            exists w', fst run = ExampleFastaScript.Returned tt w')
        /\ (first_missing = Some "merge_name"%string ->
            exists ids workers,
              last (snd run) ExampleFastaScript.called_create_all
              = ExampleFastaScript.called_download_fastas ids workers)).
Proof.
  intros World Value Exn Engine Sessionmaker Session Handler KeyError str
         number read_yaml_config create_engine create_all sessionmaker
         new_session query_all FastaHandler download_fastas merge_fastas
         w w0 config run first_missing Hread.
  subst run first_missing.
  split; [|split; [|split; [|split]]].
  - intros key. now apply fasta_missing_database_key.
  - intros ids workers. now apply fasta_download_needs_keys with (w0 := w0).
  - intros ids name. now apply fasta_merge_needs_keys with (w0 := w0).
  - intros threshold. now apply fasta_query_threshold with (w0 := w0) (config := config).
  - intros H1 H2 H3 H4 H5 H6 H7 H8. split; [|split].
    + intros key. now apply fasta_first_missing_key with (w0 := w0).
    + now apply fasta_no_missing_key with (w0 := w0).
    + now apply fasta_merge_name_missing with (w0 := w0).
Qed.

(** The theorem at a configuration that lacks [merge_name] only. *)
Lemma fasta_main_key_errors_witness :
  exists w',
    fst (ExampleFastaScript.main key_error (fun v => v) as_value
           (fun _ => fasta_returning config_without_merge_name)
           (fun _ => fasta_returning tt) (fun _ => fasta_returning tt)
           (fun _ => fasta_returning tt) (fun _ => fasta_returning tt)
           (fun _ _ => fasta_returning fasta_refs)
           (fun _ _ _ => fasta_returning tt)
           (fun _ _ _ => fasta_returning tt)
           (fun _ _ _ => fasta_returning tt) 0%nat [])
    = ExampleFastaScript.Raised (key_error "merge_name") w'.
Proof.
  destruct (fasta_main_key_errors nat string string unit unit unit unit
              key_error (fun v => v) as_value
              (fun _ => fasta_returning config_without_merge_name)
              (fun _ => fasta_returning tt) (fun _ => fasta_returning tt)
              (fun _ => fasta_returning tt) (fun _ => fasta_returning tt)
              (fun _ _ => fasta_returning fasta_refs)
              (fun _ _ _ => fasta_returning tt)
              (fun _ _ _ => fasta_returning tt)
              (fun _ _ _ => fasta_returning tt)
              0%nat 1%nat config_without_merge_name eq_refl)
    as (_ & _ & _ & _ & H).
  destruct H as (H & _ & _);
    try (intros; intros w; eexists; eexists; reflexivity).
  apply H. reflexivity.
Defined.

(** ** [OperatorBase.__init__]: the order of the calls *)



(** The theorem at a subclass named [PDBExtractor] whose collaborators all
    return. *)
Example operator_init_returns :
  Operator.__init__ (fun key => ("KeyError: " ++ key)%string)
    (fun n => returning n) (fun _ _ => returning tt)
    (fun _ => returning tt) (fun _ => returning tt)
    (fun path => returning path) (fun handle => returning handle)
    (fun _ _ => returning tt) (fun _ _ => returning tt)
    "PDBExtractor" operator_conf 0%nat []
  = (Operator.Returned
       (Operator.mkOperatorBase string string unit operator_conf
          "PDBExtractor"%string tt) 9%nat,
     Operator.all_calls "PDBExtractor" "constants.yaml"%string).
Proof. reflexivity. Qed.

(** ** The tables: what the declared constraints let through *)

Lemma mem_string_In (x : string) (l : list string) :
  mem_string x l = true <-> In x l.
Proof.
  unfold mem_string. rewrite existsb_exists. split.
  - intros (y & Hy & Heq). apply String.eqb_eq in Heq. now subst.
  - intros H. exists x. split; [assumption | apply String.eqb_refl].
Qed.

Lemma distinct_string_NoDup (l : list string) :
  distinct_string l = true <-> NoDup l.
Proof.
  induction l as [|x l IH]; simpl.
  - split; [constructor | reflexivity].
  - rewrite andb_true_iff, negb_true_iff, IH. split.
    + intros [H1 H2]. constructor; [|assumption].
      intros Hin. apply mem_string_In in Hin. congruence.
    + intros H. inversion H; subst. split; [|assumption].
      apply not_true_is_false. now rewrite mem_string_In.
Qed.

Lemma present_In {A B} (f : A -> option B) (rows : list A) (r : A) (v : B) :
  In r rows -> f r = Some v -> In v (present f rows).
Proof.
  intros Hin Hf. unfold present. apply in_flat_map. exists r.
  split; [assumption|]. rewrite Hf. now left.
Qed.

(** Rows whose hash is a function of their sequence: distinct hashes force
    distinct sequences. *)
Lemma hashed_rows_distinct (h : string -> string) (rows : list Sequence.t) :
  (forall r, In r rows ->
     Sequence.sequence_hash r = option_map h (Sequence.sequence r)) ->
  forallb (fun s => match Sequence.sequence s with
                    | Some _ => true | None => false end) rows = true ->
  NoDup (present Sequence.sequence_hash rows) ->
  NoDup (map Sequence.sequence rows).
Proof.
  induction rows as [|r rows IH]; intros Hh Hnn Hnd; [constructor|].
  cbn [forallb] in Hnn. apply andb_true_iff in Hnn. destruct Hnn as [Hr Hnn].
  destruct (Sequence.sequence r) as [s|] eqn:Hs; [|discriminate].
  pose proof (Hh r (or_introl eq_refl)) as Hhash. rewrite Hs in Hhash.
  cbn [option_map] in Hhash.
  unfold present in Hnd. cbn [flat_map] in Hnd. rewrite Hhash in Hnd.
  cbn [app] in Hnd. inversion Hnd as [|x l Hnotin Hnd']; subst.
  cbn [map]. rewrite Hs. constructor.
  - intros Hin. apply in_map_iff in Hin. destruct Hin as (r' & Hs' & Hin').
    apply Hnotin. apply (present_In _ _ r'); [assumption|].
    rewrite (Hh r' (or_intror Hin')), Hs'. reflexivity.
  - apply IH; [|assumption|assumption].
    intros r' Hin'. apply Hh. now right.
Qed.

(** X10: a [sequences] table the constraints accept, whose rows all carry
    the hash their constructor computed, never holds the same sequence
    string twice: the unique index on [sequence_hash] works as a uniqueness
    constraint on [sequence]. *)
Theorem sequences_are_unique :
  forall db : Store,
    sequences_ok db = true ->
    (forall r, In r (sequences db) ->
       Sequence.sequence_hash r = Sequence.func_md5 (Sequence.sequence r)) ->
    NoDup (map Sequence.sequence (sequences db)).
Proof.
  intros db Hok Hh. unfold sequences_ok in Hok.
  rewrite !andb_true_iff in Hok. destruct Hok as [[_ Hnn] Hd].
  apply distinct_string_NoDup in Hd.
  exact (hashed_rows_distinct MD5.md5 (sequences db) Hh Hnn Hd).
Qed.

(** The theorem at the sequence table of [two_representatives_store]. *)
Lemma sequences_are_unique_witness :
  NoDup (map Sequence.sequence (sequences two_representatives_store)).
Proof.
  apply (sequences_are_unique two_representatives_store).
  - vm_compute. reflexivity.
  - intros r [<- | [<- | []]]; reflexivity.
Defined.

Lemma forallb_map {A B} (g : B -> bool) (f : A -> B) (l : list A) :
  forallb g (map f l) = forallb (fun x => g (f x)) l.
Proof. induction l as [|x l IH]; simpl; [reflexivity | now rewrite IH]. Qed.

Lemma forallb_ext_eq {A} (g g' : A -> bool) (l : list A) :
  (forall x, g x = g' x) -> forallb g l = forallb g' l.
Proof.
  intros H. induction l as [|x l IH]; simpl; [reflexivity|].
  now rewrite H, IH.
Qed.

(** The key constraints of the queue table look at the primary key and the
    two foreign keys only. *)
Lemma schema_ok_with_queue_map (db : Store) (f : SAQ.t -> SAQ.t) :
  (forall t, SAQ.id (f t) = SAQ.id t
             /\ SAQ.cluster_entry_id (f t) = SAQ.cluster_entry_id t
             /\ SAQ.alignment_type_id (f t) = SAQ.alignment_type_id t) ->
  schema_ok (TQ.with_queue db (map f (structural_alignment_queue db)))
  = schema_ok db.
Proof.
  intros Hf. unfold schema_ok. f_equal. f_equal.
  unfold structural_alignment_queue_ok.
  cbn [structural_alignment_queue TQ.with_queue].
  rewrite map_map, forallb_map. f_equal.
  - f_equal. apply map_ext. intros t. apply Hf.
  - apply forallb_ext_eq. intros t.
    destruct (Hf t) as (_ & -> & ->). reflexivity.
Qed.

(** X11: no constraint of the queue table looks at [state] or
    [retry_count].  A store with a violated key constraint keeps the
    violation however [state], [retry_count], [error_message] and the
    timestamps of its queue rows are rewritten.  And in a store whose key
    constraints and integer ranges hold, [state] and [retry_count] of every
    row can be replaced by any value of the INTEGER type (a state outside
    0..3, a negative retry count): the key constraints and integer ranges
    still hold. *)
Theorem constraints_ignore_task_state :
  forall (db : Store),
    (forall f : SAQ.t -> SAQ.t,
       (forall t, SAQ.id (f t) = SAQ.id t
                  /\ SAQ.cluster_entry_id (f t) = SAQ.cluster_entry_id t
                  /\ SAQ.alignment_type_id (f t) = SAQ.alignment_type_id t) ->
       schema_ok db = false ->
       schema_ok (TQ.with_queue db (map f (structural_alignment_queue db)))
       = false)
    /\ (forall state retry_count : SAQ.t -> Z,
          keys_and_integers_ok db = true ->
          (forall t, In t (structural_alignment_queue db) ->
                     int32 (state t) = true /\ int32 (retry_count t) = true) ->
          keys_and_integers_ok
            (TQ.with_queue db
               (map (fun t => with_state (state t) (retry_count t) t)
                    (structural_alignment_queue db)))
          = true).
Proof.
  intros db. split.
  - intros f Hf Hno. now rewrite schema_ok_with_queue_map.
  - intros state retry_count Hok Hrange. unfold keys_and_integers_ok in *.
    rewrite !andb_true_iff in Hok. destruct Hok as [[Hs Hq] Hr].
    rewrite schema_ok_with_queue_map by (intros t; repeat split).
    rewrite Hs. cbn [structural_alignment_queue structural_alignment_results
                     TQ.with_queue andb].
    rewrite Hr, andb_true_r. rewrite forallb_map.
    rewrite forallb_forall in *. intros t Hin.
    specialize (Hq t Hin). destruct (Hrange t Hin) as [H1 H2].
    unfold queue_row_integers_ok in *. cbn [with_state SAQ.id
      SAQ.cluster_entry_id SAQ.alignment_type_id SAQ.state SAQ.retry_count].
    rewrite !andb_true_iff in *. tauto.
Qed.

(** The theorem at [fk_store], its row given the state 7 and the retry
    count -1. *)
Lemma constraints_ignore_task_state_witness :
  keys_and_integers_ok
    (TQ.with_queue fk_store
       (map (fun t => with_state 7 (-1) t)
            (structural_alignment_queue fk_store)))
  = true.
Proof.
  destruct (constraints_ignore_task_state fk_store) as [_ H].
  apply (H (fun _ => 7) (fun _ => -1)).
  - vm_compute. reflexivity.
  - intros t _. split; reflexivity.
Defined.

Lemma distinctZ_app_one (l : list Z) (x : Z) :
  distinctZ (l ++ [x]) = distinctZ l && negb (memZ x l).
Proof.
  induction l as [|y l IH]; simpl; [reflexivity|].
  rewrite IH. unfold memZ at 1. rewrite existsb_app. simpl.
  fold (memZ y l). rewrite orb_false_r.
  rewrite (Z.eqb_sym x y).
  destruct (memZ y l), (y =? x), (distinctZ l), (memZ x l); reflexivity.
Qed.

(** The key constraints and a new queue row. *)
Lemma schema_ok_queue_row (db : Store) (row : SAQ.t) :
  schema_ok db = true ->
  (schema_ok (TQ.with_queue db (structural_alignment_queue db ++ [row]))
   = true
   <-> ~ In (SAQ.id row) (map SAQ.id (structural_alignment_queue db))
       /\ In (SAQ.cluster_entry_id row) (cluster_ids db)
       /\ In (SAQ.alignment_type_id row) (alignment_type_ids db)).
Proof.
  intros Hok. unfold schema_ok in *.
  rewrite !andb_true_iff in Hok.
  destruct Hok as [[[[[Hs Hc] He] Ht] Hq] Hr].
  change (sequences_ok (TQ.with_queue db _)) with (sequences_ok db).
  change (clusters_ok (TQ.with_queue db _)) with (clusters_ok db).
  change (cluster_entries_ok (TQ.with_queue db _))
    with (cluster_entries_ok db).
  change (structural_alignment_types_ok (TQ.with_queue db _))
    with (structural_alignment_types_ok db).
  change (structural_alignment_results_ok (TQ.with_queue db _))
    with (structural_alignment_results_ok db).
  rewrite Hs, Hc, He, Ht, Hr. cbn [andb]. rewrite andb_true_r.
  unfold structural_alignment_queue_ok in *.
  cbn [structural_alignment_queue TQ.with_queue].
  change (cluster_ids (TQ.with_queue db _)) with (cluster_ids db).
  change (alignment_type_ids (TQ.with_queue db _))
    with (alignment_type_ids db).
  apply andb_true_iff in Hq. destruct Hq as [Hd Hf].
  rewrite map_app, forallb_app. cbn [map forallb].
  rewrite distinctZ_app_one, Hd, Hf. cbn [andb]. rewrite andb_true_r.
  rewrite !andb_true_iff, negb_true_iff, memZ_false, !memZ_In. tauto.
Qed.

(** X12: in a store whose key constraints and integer ranges hold, they
    still hold with a new queue row exactly when the id of the row is not
    yet used, its [cluster_entry_id] is the id of a [clusters] row, its
    [alignment_type_id] the id of an alignment type, and its five integers
    are in the range of INTEGER.  In particular a row the database accepts
    has these properties, and neither the pair nor the state of the row is
    looked at. *)
Theorem queue_row_keeps_constraints_iff :
  forall (db : Store) (row : SAQ.t),
    keys_and_integers_ok db = true ->
    (keys_and_integers_ok
       (TQ.with_queue db (structural_alignment_queue db ++ [row])) = true
     <-> ~ In (SAQ.id row) (map SAQ.id (structural_alignment_queue db))
         /\ In (SAQ.cluster_entry_id row) (cluster_ids db)
         /\ In (SAQ.alignment_type_id row) (alignment_type_ids db)
         /\ queue_row_integers_ok row = true).
Proof.
  intros db row Hok. unfold keys_and_integers_ok in *.
  rewrite !andb_true_iff in Hok. destruct Hok as [[Hs Hq] Hr].
  cbn [structural_alignment_queue structural_alignment_results
       TQ.with_queue].
  rewrite forallb_app, Hq, Hr. cbn [forallb andb].
  rewrite !andb_true_r, andb_true_iff.
  rewrite (schema_ok_queue_row db row Hs). tauto.
Qed.

(** The theorem at [fk_store] and a second row for the pair (1, 1). *)
Lemma queue_row_keeps_constraints_iff_witness :
  keys_and_integers_ok fk_store = true
  /\ keys_and_integers_ok
       (TQ.with_queue fk_store
          (structural_alignment_queue fk_store
             ++ [SAQ.new_row 2 0 1 1])) = true.
Proof.
  assert (H : keys_and_integers_ok fk_store = true)
    by (vm_compute; reflexivity).
  split; [exact H|].
  apply (queue_row_keeps_constraints_iff fk_store (SAQ.new_row 2 0 1 1) H).
  split; [|split; [|split]].
  - simpl. intros [Heq | []]. discriminate.
  - left. reflexivity.
  - left. reflexivity.
  - reflexivity.
Defined.

Lemma NoDup_map_filter {A} (f : A -> Z) (keep : A -> bool) (l : list A) :
  NoDup (map f l) -> NoDup (map f (filter keep l)).
Proof.
  induction l as [|x l IH]; simpl; [trivial|].
  intros H. inversion H as [|y l' Hnotin Hnd]; subst.
  destruct (keep x); simpl; [|now apply IH].
  constructor; [|now apply IH].
  intros Hin. apply Hnotin. apply in_map_iff in Hin.
  destruct Hin as (z & Hz & Hin). apply filter_In in Hin.
  apply in_map_iff. exists z. tauto.
Qed.

Lemma forallb_filter {A} (g keep : A -> bool) (l : list A) :
  forallb g l = true -> forallb g (filter keep l) = true.
Proof.
  rewrite !forallb_forall. intros H x Hx. apply filter_In in Hx.
  apply H, Hx.
Qed.

(** X13: no table references [cluster_entries]: removing any cluster
    entries from a store the constraints accept leaves a store they accept,
    whatever queue rows and result rows carry in [cluster_entry_id]. *)
Theorem cluster_entries_are_unprotected :
  forall (db : Store) (keep : ClusterEntry.t -> bool),
    schema_ok db = true ->
    schema_ok (CE.with_clusters db (clusters db)
                 (filter keep (cluster_entries db))) = true.
Proof.
  intros db keep Hok. unfold schema_ok in *.
  rewrite !andb_true_iff in Hok.
  destruct Hok as [[[[[Hs Hc] He] Ht] Hq] Hr].
  rewrite !andb_true_iff. repeat split; try assumption.
  unfold cluster_entries_ok in *. apply andb_true_iff in He.
  destruct He as [Hd Hf]. apply andb_true_iff. split.
  - apply distinctZ_NoDup. apply distinctZ_NoDup in Hd.
    unfold cluster_entry_ids in *.
    cbn [cluster_entries CE.with_clusters]. now apply NoDup_map_filter.
  - cbn [cluster_entries CE.with_clusters].
    change (cluster_ids (CE.with_clusters db (clusters db) _))
      with (cluster_ids db).
    change (sequence_ids (CE.with_clusters db (clusters db) _))
      with (sequence_ids db).
    now apply forallb_filter.
Qed.

(** The theorem at [fk_store], its only cluster entry removed. *)
Lemma cluster_entries_are_unprotected_witness :
  schema_ok fk_store = true
  /\ schema_ok (CE.with_clusters fk_store (clusters fk_store) []) = true.
Proof.
  assert (H : schema_ok fk_store = true) by (vm_compute; reflexivity).
  split; [exact H|].
  exact (cluster_entries_are_unprotected fk_store (fun _ => false) H).
Defined.

Lemma forallb_false_In {A} (g : A -> bool) (l : list A) (x : A) :
  In x l -> g x = false -> forallb g l = false.
Proof.
  intros Hin Hg. apply not_true_is_false. intros H.
  rewrite forallb_forall in H. rewrite (H x Hin) in Hg. discriminate.
Qed.

(** X14: a [clusters] row that a queue row names in [cluster_entry_id]
    cannot be removed: the store without the cluster is refused, whatever
    else it holds. *)
Theorem referenced_cluster_is_protected :
  forall (db : Store) (q : SAQ.t),
    In q (structural_alignment_queue db) ->
    schema_ok
      (CE.with_clusters db
         (filter (fun c => negb (Cluster.id c =? SAQ.cluster_entry_id q))
                 (clusters db))
         (cluster_entries db))
    = false.
Proof.
  intros db q Hin. unfold schema_ok.
  assert (Hq : structural_alignment_queue_ok
    (CE.with_clusters db
       (filter (fun c => negb (Cluster.id c =? SAQ.cluster_entry_id q))
               (clusters db))
       (cluster_entries db)) = false).
  { unfold structural_alignment_queue_ok.
    cbn [structural_alignment_queue CE.with_clusters].
    rewrite (forallb_false_In _ _ q Hin); [apply andb_false_r|].
    apply andb_false_intro1. apply memZ_false.
    unfold cluster_ids. cbn [clusters CE.with_clusters].
    intros H. apply in_map_iff in H. destruct H as (c & Hc & Hf).
    apply filter_In in Hf. destruct Hf as [_ Hf].
    apply negb_true_iff, Z.eqb_neq in Hf. congruence. }
  rewrite Hq. now rewrite andb_false_r.
Qed.

(** The theorem at [fk_store], whose queue row names cluster 1. *)
Lemma referenced_cluster_is_protected_witness :
  schema_ok (CE.with_clusters fk_store [] (cluster_entries fk_store)) = false.
Proof.
  apply (referenced_cluster_is_protected fk_store (SAQ.new_row 1 0 1 1)).
  left. reflexivity.
Defined.

(** ** The characters of a hash *)

Lemma hex_digit_in (n : Z) :
  0 <= n < 16 ->
  In (MD5.hex_digit n) (list_ascii_of_string "0123456789abcdef").
Proof.
  intros Hn. unfold MD5.hex_digit. apply nth_In.
  change (List.length (list_ascii_of_string "0123456789abcdef")) with 16%nat.
  lia.
Qed.

Lemma le_bytes_range (n : nat) :
  forall x b, In b (MD5.le_bytes n x) -> 0 <= b < 256.
Proof.
  induction n as [|n IH]; intros x b; cbn [MD5.le_bytes]; [intros []|].
  intros [<- | Hin]; [|eapply IH; exact Hin].
  change 0xff with (Z.ones 8). rewrite Z.land_ones by lia.
  apply Z.mod_pos_bound. lia.
Qed.

Lemma hex_of_bytes_chars (bs : list Z) (c : ascii) :
  (forall b, In b bs -> 0 <= b < 256) ->
  In c (list_ascii_of_string (MD5.hex_of_bytes bs)) ->
  In c (list_ascii_of_string "0123456789abcdef").
Proof.
  intros Hb. unfold MD5.hex_of_bytes.
  rewrite list_ascii_of_string_of_list_ascii. intros Hin.
  apply in_flat_map in Hin. destruct Hin as (b & Hbin & Hc).
  specialize (Hb b Hbin). destruct Hc as [<- | [<- | []]].
  - apply hex_digit_in. rewrite Z.shiftr_div_pow2 by lia.
    change (2 ^ 4) with 16. split.
    + apply Z.div_pos; lia.
    + apply Z.div_lt_upper_bound; lia.
  - apply hex_digit_in. change 0xf with (Z.ones 4).
    rewrite Z.land_ones by lia. apply Z.mod_pos_bound. lia.
Qed.

(** X15: the hash a [Sequence] is given on construction consists of
    lowercase hexadecimal digits only, whatever the sequence string. *)
Theorem sequence_hash_is_lowercase_hex :
  forall (kw_id : Z) (s : string) (kw_hash : option string),
    exists d,
      Sequence.sequence_hash (Sequence.__init__ kw_id (Some s) kw_hash)
      = Some d
      /\ forall c, In c (list_ascii_of_string d) ->
                   In c (list_ascii_of_string "0123456789abcdef").
Proof.
  intros kw_id s kw_hash. exists (MD5.md5 s). split; [reflexivity|].
  intros c. unfold MD5.md5. apply hex_of_bytes_chars.
  intros b Hb. unfold MD5.digest_bytes in Hb.
  repeat (apply in_app_or in Hb; destruct Hb as [Hb | Hb];
          [eapply le_bytes_range; exact Hb|]).
  eapply le_bytes_range; exact Hb.
Qed.

(** ** Result rows without tasks *)

(** The key constraints and a new result row. *)
Lemma schema_ok_result_row (db : Store) (row : SAR.t) :
  schema_ok db = true ->
  (schema_ok
     (TQ.with_queue_results db (structural_alignment_queue db)
        (structural_alignment_results db ++ [row])) = true
   <-> ~ In (SAR.id row) (map SAR.id (structural_alignment_results db))
       /\ (SAR.cluster_entry_id row = None
           \/ exists c, SAR.cluster_entry_id row = Some c
                        /\ In c (cluster_ids db))).
Proof.
  intros Hok. unfold schema_ok in *.
  rewrite !andb_true_iff in Hok.
  destruct Hok as [[[[[Hs Hc] He] Ht] Hq] Hr].
  change (sequences_ok (TQ.with_queue_results db _ _)) with (sequences_ok db).
  change (clusters_ok (TQ.with_queue_results db _ _)) with (clusters_ok db).
  change (cluster_entries_ok (TQ.with_queue_results db _ _))
    with (cluster_entries_ok db).
  change (structural_alignment_types_ok (TQ.with_queue_results db _ _))
    with (structural_alignment_types_ok db).
  change (structural_alignment_queue_ok
            (TQ.with_queue_results db (structural_alignment_queue db) _))
    with (structural_alignment_queue_ok db).
  rewrite Hs, Hc, He, Ht, Hq. cbn [andb].
  unfold structural_alignment_results_ok in *.
  cbn [structural_alignment_results TQ.with_queue_results].
  change (cluster_ids (TQ.with_queue_results db _ _)) with (cluster_ids db).
  apply andb_true_iff in Hr. destruct Hr as [Hd Hf].
  rewrite map_app, forallb_app. cbn [map forallb].
  rewrite distinctZ_app_one, Hd, Hf. cbn [andb]. rewrite andb_true_r.
  rewrite andb_true_iff, negb_true_iff, memZ_false.
  unfold fk_nullable. destruct (SAR.cluster_entry_id row) as [c|].
  - rewrite memZ_In. split.
    + intros [H1 H2]. split; [assumption|]. right. now exists c.
    + intros [H1 [H2 | (c' & [= <-] & H2)]]; [discriminate | now split].
  - split; [intros [H1 _]; split; [assumption | now left] | tauto].
Qed.

(** X16: in a store whose key constraints and integer ranges hold, they
    still hold with a new result row exactly when the id of the row is not
    yet used and in the range of INTEGER, and its [cluster_entry_id] is
    NULL or the id, in that range, of a [clusters] row.  The result table
    does not refer to the queue: no constraint asks for a task, so the
    conditions can be met in a store whose queue is empty. *)
Theorem result_row_keeps_constraints_iff :
  forall (db : Store) (row : SAR.t),
    keys_and_integers_ok db = true ->
    (keys_and_integers_ok
       (TQ.with_queue_results db (structural_alignment_queue db)
          (structural_alignment_results db ++ [row])) = true
     <-> ~ In (SAR.id row) (map SAR.id (structural_alignment_results db))
         /\ (SAR.cluster_entry_id row = None
             \/ exists c, SAR.cluster_entry_id row = Some c
                          /\ In c (cluster_ids db))
         /\ result_row_integers_ok row = true).
Proof.
  intros db row Hok. unfold keys_and_integers_ok in *.
  rewrite !andb_true_iff in Hok. destruct Hok as [[Hs Hq] Hr].
  cbn [structural_alignment_queue structural_alignment_results
       TQ.with_queue_results].
  rewrite forallb_app, Hq, Hr. cbn [forallb andb].
  rewrite !andb_true_r, andb_true_iff.
  rewrite (schema_ok_result_row db row Hs). tauto.
Qed.

(** The theorem at the empty store and a result row without cluster. *)
Lemma result_row_keeps_constraints_iff_witness :
  keys_and_integers_ok empty_store = true
  /\ keys_and_integers_ok
       (TQ.with_queue_results empty_store
          (structural_alignment_queue empty_store)
          (structural_alignment_results empty_store
             ++ [SAR.mk 1 None (Some (12 # 10)) None None None None None
                        None None None None])) = true.
Proof.
  assert (H : keys_and_integers_ok empty_store = true) by reflexivity.
  split; [exact H|].
  apply (result_row_keeps_constraints_iff empty_store _ H).
  split; [intros [] | split; [now left | reflexivity]].
Defined.
